(** * Phase 3 C frontend: the menu loop and its JSON-RPC client

    A shallow embedding of [core/frontend/main.c] (the networked variant,
    module [Main]) and [core/frontend/main_simple.c] (the mock variant,
    module [MainSimple]).

    - Bytes are [ascii]; an array of [char] is a [list ascii] holding the
      whole array, and the C string stored in it is the run of bytes before
      its first NUL.
    - Standard input is the list of bytes not read yet.  Everything the
      program does to the outside is appended to a trace of events.
    - The two external libraries are a parameter of the development (a
      [world]): what json-c's tokener returns for a text, whether libcurl
      hands out a handle, and what each transfer delivers.
    - A step whose behaviour the C standard leaves undefined (reading a string
      out of an array that holds no NUL, an integer that does not fit [int])
      ends the run in [Undefined]. *)

From Stdlib Require Import List ZArith Lia Bool Ascii String DecimalString.
From Stdlib Require DecimalFacts.
Import ListNotations.
Local Open Scope Z_scope.
Set Warnings "-register-all".

(* ================================================================== *)
(** ** C text: characters, literals, strings in arrays *)

Module CText.

Definition NUL : ascii := "000"%char.
Definition LF  : ascii := "010"%char.
Definition DQ  : ascii := "034"%char.

(** C string literals are written here with a backquote for the escaped
    double quote and with the two characters backslash, n for the line
    feed: the source's ["{\"level\":%d}\n"] would read [c_lit "{`level`:%d}\n"]. *)
Fixpoint c_lit (s : string) : string :=
  match s with
  | EmptyString => EmptyString
  | String c t =>
      if Ascii.eqb c "`"%char then String DQ (c_lit t)
      else if Ascii.eqb c "\"%char then
        match t with
        | String d t' => if Ascii.eqb d "n"%char then String LF (c_lit t')
                         else String c (c_lit t)
        | EmptyString => String c EmptyString
        end
      else String c (c_lit t)
  end.

(** The number of a byte, 0 to 255. *)
Definition code (c : ascii) : Z := Z.of_N (N_of_ascii c).

Definition bytes (s : string) : list ascii := list_ascii_of_string s.
Definition text (l : list ascii) : string := string_of_list_ascii l.

Definition is_nul (c : ascii) : bool := Ascii.eqb c NUL.
Definition is_lf (c : ascii) : bool := Ascii.eqb c LF.

(** The bytes before the first NUL, and [None] when the array holds no NUL
    (reading the string would run off the array). *)
Fixpoint cstr_bytes (buf : list ascii) : option (list ascii) :=
  match buf with
  | [] => None
  | c :: t => if is_nul c then Some []
              else option_map (cons c) (cstr_bytes t)
  end.

Definition cstr (buf : list ascii) : option string :=
  option_map text (cstr_bytes buf).

(** The bytes of [l] before its first NUL, all of [l] when it has none: what
    a C function reading a string sees of a byte sequence that is followed by
    a terminator. *)
Fixpoint until_nul (l : list ascii) : list ascii :=
  match l with
  | [] => []
  | c :: t => if is_nul c then [] else c :: until_nul t
  end.

(** Overwrite the start of an array. *)
Definition poke (data buf : list ascii) : list ascii :=
  data ++ skipn (List.length data) buf.

(** [buf[i] = 0] *)
Fixpoint clear_at (i : nat) (buf : list ascii) : list ascii :=
  match i, buf with
  | _, [] => []
  | O, _ :: t => NUL :: t
  | S j, c :: t => c :: clear_at j t
  end.

(** [strcspn(buf, "\n")]: the index of the first line feed or of the
    terminator, [None] when the array holds neither. *)
Fixpoint strcspn_lf (buf : list ascii) : option nat :=
  match buf with
  | [] => None
  | c :: t => if is_nul c || is_lf c then Some O
              else option_map S (strcspn_lf t)
  end.

(** [strncpy(dst, src, n)] where [src] is a terminated byte sequence: the
    [n] bytes written are the string, cut at [n], then NULs up to [n]. *)
Definition strncpy_bytes (src : list ascii) (n : nat) : list ascii :=
  let s := firstn n (until_nul src) in
  s ++ repeat NUL (n - List.length s).

(** [snprintf(dst, size, ...)] once the text is formatted: at most
    [size - 1] bytes of it, then the terminator. *)
Definition snprintf_bytes (size : nat) (formatted : string) : list ascii :=
  firstn (size - 1) (bytes formatted) ++ [NUL].

(** [%d] *)
Definition dec (z : Z) : string := NilZero.string_of_int (Z.to_int z).

End CText.
Import CText.

(* ================================================================== *)
(** ** Standard input *)

Module Stdin.

Definition isspace (c : ascii) : bool :=
  let n := code c in
  (n =? 32) || ((9 <=? n) && (n <=? 13)).

Definition is_sign (c : ascii) : bool :=
  Ascii.eqb c "-"%char || Ascii.eqb c "+"%char.

Definition digit (c : ascii) : option Z :=
  let n := code c in
  if (48 <=? n) && (n <=? 57) then Some (n - 48) else None.

Definition is_digit (c : ascii) : bool :=
  match digit c with Some _ => true | None => false end.

Fixpoint skip_space (l : list ascii) : list ascii :=
  match l with
  | c :: t => if isspace c then skip_space t else l
  | [] => []
  end.

Fixpoint read_digits (acc : Z) (l : list ascii) : Z * list ascii :=
  match l with
  | c :: t => match digit c with
              | Some d => read_digits (10 * acc + d) t
              | None => (acc, l)
              end
  | [] => (acc, [])
  end.

Definition INT_MIN : Z := - 2 ^ 31.
Definition INT_MAX : Z := 2 ^ 31 - 1.
Definition EOF : Z := -1.

(** What one [scanf("%d", &x)] does: the value it returns with the value
    it stores, if any. *)
Inductive scan : Type :=
| Assigned (v : Z)   (* returns 1, [v] stored *)
| MatchFail          (* returns 0, nothing stored *)
| InputFail          (* returns EOF, nothing stored *)
| Unrepresentable.   (* the numeral does not fit [int]: undefined *)

Definition scan_ret (r : scan) : option Z :=
  match r with
  | Assigned _ => Some 1
  | MatchFail => Some 0
  | InputFail => Some EOF
  | Unrepresentable => None
  end.

(** [scanf("%d", ...)] on the unread input: white space is skipped, an
    optional sign is read, then the longest run of digits.  The first byte
    that does not belong to the numeral stays unread; a sign that no digit
    follows has been read all the same. *)
Definition scanf_d (l : list ascii) : scan * list ascii :=
  match skip_space l with
  | [] => (InputFail, [])
  | c :: t =>
      let body := if is_sign c then t else c :: t in
      match body with
      | [] => (MatchFail, [])
      | d :: _ =>
          if is_digit d then
            let (n, rest) := read_digits 0 body in
            let v := if Ascii.eqb c "-"%char then - n else n in
            if (INT_MIN <=? v) && (v <=? INT_MAX) then (Assigned v, rest)
            else (Unrepresentable, rest)
          else (MatchFail, body)
      end
  end.

(** [getchar()], its value dropped. *)
Definition getchar (l : list ascii) : list ascii := tl l.

(** The bytes one [fgets] takes: up to [n] of them, through the first line
    feed. *)
Fixpoint read_line (n : nat) (l : list ascii) : list ascii * list ascii :=
  match n, l with
  | S m, c :: t =>
      if is_lf c then ([c], t)
      else let (r, rest) := read_line m t in (c :: r, rest)
  | _, _ => ([], l)
  end.

(** [fgets(buf, size, stdin)], its value dropped: at end of input the array
    is left as it was. *)
Definition fgets (buf : list ascii) (size : nat) (l : list ascii)
  : list ascii * list ascii :=
  match l with
  | [] => (buf, [])
  | _ :: _ => let (r, rest) := read_line (size - 1) l in
              (poke (r ++ [NUL]) buf, rest)
  end.

End Stdin.
Import Stdin.

(* ================================================================== *)
(** ** json-c: values and [json_object_to_json_string] *)

Module Json.

(** A [json_object *] is an [option json_object]: JSON's null is the NULL
    pointer, as in json-c.  A double keeps the text it is printed as. *)
Inductive json_object : Type :=
| json_boolean (b : bool)
| json_int (i : Z)
| json_double (repr : string)
| json_string (s : string)
| json_array (items : list (option json_object))
| json_obj (members : list (string * option json_object)).

Definition json_object_new_object : json_object := json_obj [].
Definition json_object_new_string (s : string) : json_object := json_string s.
Definition json_object_new_int (i : Z) : json_object := json_int i.

(** [json_object_object_add]: a new key goes to the end, an existing key
    keeps its place and takes the new value. *)
Fixpoint members_add (key : string) (val : option json_object)
  (m : list (string * option json_object)) : list (string * option json_object) :=
  match m with
  | [] => [(key, val)]
  | (k, v) :: t => if String.eqb k key then (k, val) :: t
                   else (k, v) :: members_add key val t
  end.

Definition json_object_object_add (o : json_object) (key : string)
  (val : option json_object) : json_object :=
  match o with
  | json_obj m => json_obj (members_add key val m)
  | other => other
  end.

(** The two serialisation flags that matter here. *)
Record flags : Type := { spaced : bool; noslashescape : bool }.

Definition JSON_C_TO_STRING_SPACED : flags :=
  {| spaced := true; noslashescape := false |}.
Definition JSON_C_TO_STRING_PLAIN_NOSLASHESCAPE : flags :=
  {| spaced := false; noslashescape := true |}.

Definition hex_digit (n : Z) : ascii :=
  ascii_of_N (Z.to_N (if n <? 10 then 48 + n else 87 + n)).

Definition bslash (c : ascii) : string := String "\"%char (String c EmptyString).

(** [json_escape_str], one byte. *)
Definition escape_char (f : flags) (c : ascii) : string :=
  let n := CText.code c in
  if n =? 8 then bslash "b"
  else if n =? 10 then bslash "n"
  else if n =? 13 then bslash "r"
  else if n =? 9 then bslash "t"
  else if n =? 12 then bslash "f"
  else if n =? 34 then bslash DQ
  else if n =? 92 then bslash "\"
  else if n =? 47 then (if noslashescape f then String c EmptyString else bslash "/")
  else if n <? 32 then
    ("\u00" ++ String (hex_digit (n / 16)) (String (hex_digit (n mod 16)) EmptyString))%string
  else String c EmptyString.

Fixpoint json_escape_str (f : flags) (s : string) : string :=
  match s with
  | EmptyString => EmptyString
  | String c t => (escape_char f c ++ json_escape_str f t)%string
  end.

Definition quoted (f : flags) (s : string) : string :=
  String DQ (json_escape_str f s ++ String DQ EmptyString)%string.

(** [json_object_to_json_string_ext] without the pretty-printing flags. *)
Fixpoint json_object_to_json_string_ext (f : flags) (o : json_object) : string :=
  let sp := if spaced f then " "%string else EmptyString in
  let value (v : option json_object) : string :=
    match v with
    | None => "null"%string
    | Some x => json_object_to_json_string_ext f x
    end in
  match o with
  | json_boolean b => if b then "true"%string else "false"%string
  | json_int i => dec i
  | json_double r => r
  | json_string s => quoted f s
  | json_array items =>
      ("[" ++
       (fix each (had_children : bool) (l : list (option json_object)) : string :=
          match l with
          | [] => EmptyString
          | v :: t => (if had_children then "," else "") ++ sp ++ value v
                      ++ each true t
          end) false items
       ++ sp ++ "]")%string
  | json_obj members =>
      ("{" ++
       (fix each (had_children : bool) (l : list (string * option json_object)) : string :=
          match l with
          | [] => EmptyString
          | (k, v) :: t => (if had_children then "," else "") ++ sp
                           ++ quoted f k ++ ":" ++ sp ++ value v
                           ++ each true t
          end) false members
       ++ sp ++ "}")%string
  end.

(** [json_object_to_json_string(obj)] is
    [json_object_to_json_string_ext(obj, JSON_C_TO_STRING_SPACED)]. *)
Definition json_object_to_json_string (o : json_object) : string :=
  json_object_to_json_string_ext JSON_C_TO_STRING_SPACED o.

End Json.
Import Json.

(* ================================================================== *)
(** ** The outside: events, requests, the two libraries *)

Module Env.

Record http_request : Type := {
  url : string;
  method : string;
  headers : list string;
  body : string
}.

Inductive event : Type :=
| Stdout (out : string)              (* one [printf] *)
| RpcCall (tool : string) (args : option string)
                                     (* entry into [call_mcp_tool], with the
                                        string [args] designates then *)
| HttpPost (rq : http_request).      (* one [curl_easy_perform] *)

Definition CURLE_OK : Z := 0.
Definition CURLE_COULDNT_CONNECT : Z := 7.
Definition CURLE_WRITE_ERROR : Z := 23.

(** One transfer as libcurl runs it: the blocks of the response body it hands
    to the write callback, in order (each with whether the allocation the
    callback makes for it succeeds), and the code the transfer ends with when
    no callback stops it. *)
Record transfer : Type := {
  blocks : list (list ascii * bool);
  code : Z
}.

(** The behaviour of the libraries and of the server behind them; [nat] counts
    the calls of [call_mcp_tool] made so far. *)
Record world : Type := {
  json_tokener_parse : string -> option json_object;
  curl_easy_init : nat -> bool;
  curl_transfer : nat -> http_request -> transfer
}.

Definition printed_of (e : event) : string :=
  match e with Stdout o => o | _ => EmptyString end.

(** All the text written to standard output by a trace. *)
Definition printed (tr : list event) : string :=
  String.concat EmptyString (map printed_of tr).

Definition posts (tr : list event) : list http_request :=
  flat_map (fun e => match e with HttpPost rq => [rq] | _ => [] end) tr.

Definition rpc_calls (tr : list event) : list (string * option string) :=
  flat_map (fun e => match e with RpcCall t a => [(t, a)] | _ => [] end) tr.

End Env.
Import Env.

(* ================================================================== *)
(** ** main.c: the networked variant *)

Module Main.

Definition MAX_RESPONSE : nat := 4096.
Definition MAX_INPUT : nat := 1024.

(** [Response]: the block [data] points to (NULL is [None]) and [size]. *)
Record Response : Type := { data : option (list ascii); size : nat }.

(** [WriteCallback(contents, size, nmemb, response)], with whether its
    [realloc] succeeds. *)
Definition WriteCallback (contents : list ascii) (size_ nmemb : nat)
  (realloc_ok : bool) (response : Response) : nat * Response :=
  let realsize := (size_ * nmemb)%nat in
  if negb realloc_ok then (O, response)
  else
    let kept := match data response with
                | Some d => firstn (size response) d
                | None => []
                end in
    (realsize,
     {| data := Some (kept ++ firstn realsize contents ++ [NUL]);
        size := (size response + realsize)%nat |}).

(** The write callback run over the blocks of a transfer; libcurl passes 1
    for [size] and stops the transfer at the first call that returns
    something else than the number of bytes it was given. *)
Fixpoint deliver (bl : list (list ascii * bool)) (response : Response)
  : bool * Response :=
  match bl with
  | [] => (true, response)
  | (contents, realloc_ok) :: t =>
      let (n, r) := WriteCallback contents 1 (List.length contents)
                      realloc_ok response in
      if Nat.eqb n (List.length contents) then deliver t r else (false, r)
  end.

(** [curl_easy_perform] with [WriteCallback] as write function. *)
Definition curl_easy_perform (t : transfer) (response : Response)
  : Z * Response :=
  let (complete, r) := deliver (blocks t) response in
  (if complete then code t else CURLE_WRITE_ERROR, r).

(** The variables of [main], the unread input and what happened so far. *)
Record state : Type := {
  stdin : list ascii;
  trace : list event;
  input : list ascii;      (* char input[MAX_INPUT] *)
  result : list ascii;     (* char result[MAX_RESPONSE] *)
  choice : Z;
  calls : nat              (* calls of [call_mcp_tool] so far *)
}.

Definition set_stdin (l : list ascii) (s : state) : state :=
  {| stdin := l; trace := trace s; input := input s; result := result s;
     choice := choice s; calls := calls s |}.
Definition emit (e : event) (s : state) : state :=
  {| stdin := stdin s; trace := trace s ++ [e]; input := input s;
     result := result s; choice := choice s; calls := calls s |}.
Definition set_input (b : list ascii) (s : state) : state :=
  {| stdin := stdin s; trace := trace s; input := b; result := result s;
     choice := choice s; calls := calls s |}.
Definition set_result (b : list ascii) (s : state) : state :=
  {| stdin := stdin s; trace := trace s; input := input s; result := b;
     choice := choice s; calls := calls s |}.
Definition set_choice (c : Z) (s : state) : state :=
  {| stdin := stdin s; trace := trace s; input := input s; result := result s;
     choice := c; calls := calls s |}.
Definition count_call (s : state) : state :=
  {| stdin := stdin s; trace := trace s; input := input s; result := result s;
     choice := choice s; calls := S (calls s) |}.

(** Where a [char *] of the program can point: a string literal or the start
    of one of the two arrays of [main]. *)
Inductive cptr : Type :=
| Lit (s : string)
| Input
| Result.

(** A computation either goes on with a value or hits undefined behaviour. *)
Inductive res (A : Type) : Type :=
| Ok (a : A) (s : state)
| UB (s : state).
Arguments Ok {A} a s.
Arguments UB {A} s.

Definition M (A : Type) : Type := state -> res A.

Definition ret {A} (a : A) : M A := fun s => Ok a s.
Definition bind {A B} (m : M A) (k : A -> M B) : M B :=
  fun s => match m s with
           | Ok a s' => k a s'
           | UB s' => UB s'
           end.

Notation "x <- m ;; k" := (bind m (fun x => k))
  (at level 61, m at next level, right associativity).
Notation "m ;; k" := (bind m (fun _ => k))
  (at level 61, right associativity).

(** The C string a pointer designates. *)
Definition load (s : state) (p : cptr) : option string :=
  match p with
  | Lit l => Some l
  | Input => cstr (input s)
  | Result => cstr (result s)
  end.

Definition log_call (tool : string) (args : cptr) : M unit :=
  fun s => Ok tt (emit (RpcCall tool (load s args)) s).

Definition read_str (p : cptr) : M string :=
  fun s => match load s p with
           | Some v => Ok v s
           | None => UB s
           end.

(** Write [b] at the start of the array [p] points to; beyond the array, or
    into a literal, the behaviour is undefined. *)
Definition write (p : cptr) (b : list ascii) : M unit :=
  fun s => match p with
           | Lit _ => UB s
           | Input => if (List.length b <=? List.length (input s))%nat
                      then Ok tt (set_input (poke b (input s)) s) else UB s
           | Result => if (List.length b <=? List.length (result s))%nat
                       then Ok tt (set_result (poke b (result s)) s) else UB s
           end.

Definition printf (out : string) : M unit :=
  fun s => Ok tt (emit (Stdout out) s).

Definition log (e : event) : M unit := fun s => Ok tt (emit e s).

(** [scanf("%d", &choice)] and its value. *)
Definition scanf_choice : M Z :=
  fun s => match scanf_d (stdin s) with
           | (Assigned v, rest) => Ok 1 (set_choice v (set_stdin rest s))
           | (MatchFail, rest) => Ok 0 (set_stdin rest s)
           | (InputFail, rest) => Ok EOF (set_stdin rest s)
           | (Unrepresentable, rest) => UB (set_stdin rest s)
           end.

Definition do_getchar : M unit := fun s => Ok tt (set_stdin (getchar (stdin s)) s).

(** [fgets(input, sizeof(input), stdin)] *)
Definition fgets_input : M unit :=
  fun s => let (b, rest) := fgets (input s) MAX_INPUT (stdin s) in
           Ok tt (set_input b (set_stdin rest s)).

(** [input[strcspn(input, "\n")] = 0] *)
Definition chomp_input : M unit :=
  fun s => match strcspn_lf (input s) with
           | Some i => Ok tt (set_input (clear_at i (input s)) s)
           | None => UB s
           end.

Definition get_choice : M Z := fun s => Ok (choice s) s.
Definition get_calls : M nat := fun s => Ok (calls s) s.
Definition tick : M unit := fun s => Ok tt (count_call s).

Section WithWorld.

Variable W : world.

(** The request object built at lines 37 to 50. *)
Definition build_request (tool : string) (arguments : option json_object)
  : json_object :=
  let request := json_object_new_object in
  let jsonrpc := json_object_new_string "2.0" in
  let method := json_object_new_string "tools/call" in
  let id := json_object_new_int 1 in
  let params := json_object_new_object in
  let name := json_object_new_string tool in
  let params := json_object_object_add params "name" (Some name) in
  let params := json_object_object_add params "arguments" arguments in
  let request := json_object_object_add request "jsonrpc" (Some jsonrpc) in
  let request := json_object_object_add request "method" (Some method) in
  let request := json_object_object_add request "id" (Some id) in
  json_object_object_add request "params" (Some params).

(** What libcurl is set up to send: [CURLOPT_POSTFIELDS] makes the request a
    POST of that text, the header list replaces the default content type. *)
Definition post_of (json_string : string) : http_request :=
  {| url := "http://localhost:8080/mcp";
     method := "POST";
     headers := ["Content-Type: application/json"%string];
     body := json_string |}.

Definition call_mcp_tool (tool : string) (args : cptr) (result_ : cptr) : M Z :=
  log_call tool args ;;
  n <- get_calls ;;
  tick ;;
  let response := {| data := None; size := O |} in
  if negb (curl_easy_init W n) then ret (-1)
  else
    a <- read_str args ;;
    let arguments := json_tokener_parse W a in
    let request := build_request tool arguments in
    let json_string := json_object_to_json_string request in
    let rq := post_of json_string in
    log (HttpPost rq) ;;
    let (res_, response) := curl_easy_perform (curl_transfer W n rq) response in
    match (res_ =? CURLE_OK), data response with
    | true, Some d =>
        write result_ (strncpy_bytes d (MAX_RESPONSE - 1) ++ [NUL])
    | _, _ => ret tt
    end ;;
    ret (if res_ =? CURLE_OK then 0 else -1).

Definition print_menu : M unit :=
  printf (c_lit "\n=== Phase 3 Control Panel ===\n") ;;
  printf (c_lit "1. Generate Text\n") ;;
  printf (c_lit "2. System Status\n") ;;
  printf (c_lit "3. Start Frontend\n") ;;
  printf (c_lit "4. Debug Mode\n") ;;
  printf (c_lit "5. Agent Config\n") ;;
  printf (c_lit "6. Database Management\n") ;;
  printf (c_lit "7. Settings\n") ;;
  printf (c_lit "8. Exit\n") ;;
  printf "Choice: ".

(** [printf(pre "%s" post, p)] *)
Definition printf_s (pre : string) (p : cptr) (post : string) : M unit :=
  v <- read_str p ;;
  printf (pre ++ v ++ post).

(** [snprintf(result, sizeof(result), pre "%s" post, p)] *)
Definition snprintf_result_s (pre : string) (p : cptr) (post : string) : M unit :=
  v <- read_str p ;;
  write Result (snprintf_bytes MAX_RESPONSE (pre ++ v ++ post)).

(** [snprintf(result, sizeof(result), pre "%d" post, n)] *)
Definition snprintf_result_d (pre : string) (n : Z) (post : string) : M unit :=
  write Result (snprintf_bytes MAX_RESPONSE (pre ++ dec n ++ post)).

(** The [switch (choice)] of [main]: [Some code] when [main] returns [code]
    from it, [None] when the loop goes round again. *)
Definition switch_choice (c : Z) : M (option Z) :=
    match c with
    | 1 =>
        printf "Enter prompt: " ;;
        do_getchar ;;
        fgets_input ;;
        chomp_input ;;
        snprintf_result_s (c_lit "{`prompt`:`") Input (c_lit "`}") ;;
        r <- call_mcp_tool "generate" Result Result ;;
        (if r =? 0 then printf_s "Result: " Result (c_lit "\n")
         else printf (c_lit "Error calling generate tool\n")) ;;
        ret None
    | 2 =>
        r <- call_mcp_tool "get_status" (Lit "{}") Result ;;
        (if r =? 0 then printf_s "Status: " Result (c_lit "\n")
         else printf (c_lit "Error getting status\n")) ;;
        ret None
    | 3 =>
        r <- call_mcp_tool "start_frontend" (Lit "{}") Result ;;
        (if r =? 0 then printf_s "Frontend: " Result (c_lit "\n")
         else printf (c_lit "Error starting frontend\n")) ;;
        ret None
    | 4 =>
        printf "Debug level (0-3): " ;;
        _ <- scanf_choice ;;
        c <- get_choice ;;
        snprintf_result_d (c_lit "{`level`:") c "}" ;;
        r <- call_mcp_tool "set_debug" Result Result ;;
        (if r =? 0 then printf_s "Debug: " Result (c_lit "\n") else ret tt) ;;
        ret None
    | 5 =>
        r <- call_mcp_tool "get_agent_config" (Lit "{}") Result ;;
        (if r =? 0 then printf_s "Config: " Result (c_lit "\n") else ret tt) ;;
        ret None
    | 6 =>
        r <- call_mcp_tool "db_status" (Lit "{}") Result ;;
        (if r =? 0 then printf_s "Database: " Result (c_lit "\n") else ret tt) ;;
        ret None
    | 7 =>
        r <- call_mcp_tool "get_settings" (Lit "{}") Result ;;
        (if r =? 0 then printf_s "Settings: " Result (c_lit "\n") else ret tt) ;;
        ret None
    | 8 =>
        printf (c_lit "Goodbye!\n") ;;
        ret (Some 0)
    | _ =>
        printf (c_lit "Invalid choice\n") ;; ret None
    end.

(** One turn of the [while (1)] of [main]. *)
Definition main_iter : M (option Z) :=
  print_menu ;;
  r <- scanf_choice ;;
  if negb (r =? 1) then
    printf (c_lit "Invalid input\n") ;; ret None
  else
    c <- get_choice ;;
    switch_choice c.

(** How far a run has got. *)
Inductive run : Type :=
| Running (s : state)            (* still in the loop *)
| Exited (code : Z) (s : state)  (* [main] returned [code] *)
| Undefined (s : state).         (* undefined behaviour reached *)

(** The loop of [main], [fuel] turns of it at most. *)
Fixpoint main_loop (fuel : nat) (s : state) : run :=
  match fuel with
  | O => Running s
  | S n => match main_iter s with
           | Ok None s' => main_loop n s'
           | Ok (Some code_) s' => Exited code_ s'
           | UB s' => Undefined s'
           end
  end.

(** [main]: the banner, then the loop.  [curl_global_init] and
    [curl_global_cleanup] do nothing that can be observed here. *)
Definition main (fuel : nat) (s : state) : run :=
  match printf (c_lit "Phase 3 C Frontend v1.0\n") s with
  | Ok _ s' => main_loop fuel s'
  | UB s' => Undefined s'
  end.

End WithWorld.

Definition final (r : run) : state :=
  match r with Running s | Exited _ s | Undefined s => s end.

End Main.

(* ================================================================== *)
(** ** main_simple.c: the mock variant *)

Module MainSimple.

Definition INPUT_SIZE : nat := 1024.

Record state : Type := {
  stdin : list ascii;
  trace : list event;
  input : list ascii;      (* char input[1024] *)
  choice : Z
}.

Definition set_stdin (l : list ascii) (s : state) : state :=
  {| stdin := l; trace := trace s; input := input s; choice := choice s |}.
Definition emit (e : event) (s : state) : state :=
  {| stdin := stdin s; trace := trace s ++ [e]; input := input s;
     choice := choice s |}.
Definition set_input (b : list ascii) (s : state) : state :=
  {| stdin := stdin s; trace := trace s; input := b; choice := choice s |}.
Definition set_choice (c : Z) (s : state) : state :=
  {| stdin := stdin s; trace := trace s; input := input s; choice := c |}.

Inductive res (A : Type) : Type :=
| Ok (a : A) (s : state)
| UB (s : state).
Arguments Ok {A} a s.
Arguments UB {A} s.

Definition M (A : Type) : Type := state -> res A.

Definition ret {A} (a : A) : M A := fun s => Ok a s.
Definition bind {A B} (m : M A) (k : A -> M B) : M B :=
  fun s => match m s with
           | Ok a s' => k a s'
           | UB s' => UB s'
           end.

Notation "x <- m ;; k" := (bind m (fun x => k))
  (at level 61, m at next level, right associativity).
Notation "m ;; k" := (bind m (fun _ => k))
  (at level 61, right associativity).

Definition printf (out : string) : M unit :=
  fun s => Ok tt (emit (Stdout out) s).

(** [printf(pre "%s" post, input)] *)
Definition printf_input (pre post : string) : M unit :=
  fun s => match cstr (input s) with
           | Some v => Ok tt (emit (Stdout (pre ++ v ++ post)) s)
           | None => UB s
           end.

Definition scanf_choice : M Z :=
  fun s => match scanf_d (stdin s) with
           | (Assigned v, rest) => Ok 1 (set_choice v (set_stdin rest s))
           | (MatchFail, rest) => Ok 0 (set_stdin rest s)
           | (InputFail, rest) => Ok EOF (set_stdin rest s)
           | (Unrepresentable, rest) => UB (set_stdin rest s)
           end.

Definition do_getchar : M unit := fun s => Ok tt (set_stdin (getchar (stdin s)) s).

Definition fgets_input : M unit :=
  fun s => let (b, rest) := fgets (input s) INPUT_SIZE (stdin s) in
           Ok tt (set_input b (set_stdin rest s)).

Definition chomp_input : M unit :=
  fun s => match strcspn_lf (input s) with
           | Some i => Ok tt (set_input (clear_at i (input s)) s)
           | None => UB s
           end.

Definition get_choice : M Z := fun s => Ok (choice s) s.

Definition print_menu : M unit :=
  printf (c_lit "\n=== Phase 3 Control Panel ===\n") ;;
  printf (c_lit "1. Generate Text\n") ;;
  printf (c_lit "2. System Status\n") ;;
  printf (c_lit "3. Start Frontend\n") ;;
  printf (c_lit "4. Debug Mode\n") ;;
  printf (c_lit "5. Agent Config\n") ;;
  printf (c_lit "6. Database Management\n") ;;
  printf (c_lit "7. Settings\n") ;;
  printf (c_lit "8. Exit\n") ;;
  printf "Choice: ".

Definition switch_choice (c : Z) : M (option Z) :=
    match c with
    | 1 =>
        printf "Enter prompt: " ;;
        do_getchar ;;
        fgets_input ;;
        chomp_input ;;
        printf_input "Generated: Mock text for '" (c_lit "'\n") ;;
        ret None
    | 2 =>
        printf (c_lit "Status: {\n") ;;
        printf (c_lit "  `status`: `healthy`,\n") ;;
        printf (c_lit "  `server`: `phase3-admin`,\n") ;;
        printf (c_lit "  `version`: `1.0.0`,\n") ;;
        printf (c_lit "  `frontend_running`: true\n") ;;
        printf (c_lit "}\n") ;;
        ret None
    | 3 =>
        printf (c_lit "Frontend: Started on port 8080\n") ;;
        ret None
    | 4 =>
        printf "Debug level (0-3): " ;;
        _ <- scanf_choice ;;
        c <- get_choice ;;
        printf ("Debug: Level set to " ++ dec c ++ c_lit "\n") ;;
        ret None
    | 5 =>
        printf (c_lit "Config: {\n") ;;
        printf (c_lit "  `model`: `gpt-4`,\n") ;;
        printf (c_lit "  `temperature`: 0.7,\n") ;;
        printf (c_lit "  `max_tokens`: 1000\n") ;;
        printf (c_lit "}\n") ;;
        ret None
    | 6 =>
        printf (c_lit "Database: {\n") ;;
        printf (c_lit "  `connected`: true,\n") ;;
        printf (c_lit "  `sessions`: 0,\n") ;;
        printf (c_lit "  `settings`: 3\n") ;;
        printf (c_lit "}\n") ;;
        ret None
    | 7 =>
        printf (c_lit "Settings: {\n") ;;
        printf (c_lit "  `debug_level`: 1,\n") ;;
        printf (c_lit "  `frontend_port`: 8080,\n") ;;
        printf (c_lit "  `agent_model`: `gpt-4`\n") ;;
        printf (c_lit "}\n") ;;
        ret None
    | 8 =>
        printf (c_lit "Goodbye!\n") ;;
        ret (Some 0)
    | _ =>
        printf (c_lit "Invalid choice\n") ;; ret None
    end.

Definition main_iter : M (option Z) :=
  print_menu ;;
  r <- scanf_choice ;;
  if negb (r =? 1) then
    printf (c_lit "Invalid input\n") ;; ret None
  else
    c <- get_choice ;;
    switch_choice c.

Inductive run : Type :=
| Running (s : state)
| Exited (code : Z) (s : state)
| Undefined (s : state).

Fixpoint main_loop (fuel : nat) (s : state) : run :=
  match fuel with
  | O => Running s
  | S n => match main_iter s with
           | Ok None s' => main_loop n s'
           | Ok (Some code_) s' => Exited code_ s'
           | UB s' => Undefined s'
           end
  end.

Definition main (fuel : nat) (s : state) : run :=
  match (printf (c_lit "Phase 3 C Frontend v1.0 (Test Mode)\n") ;;
         printf (c_lit "Note: This is a test version with mock responses\n")) s with
  | Ok _ s' => main_loop fuel s'
  | UB s' => Undefined s'
  end.

Definition final (r : run) : state :=
  match r with Running s | Exited _ s | Undefined s => s end.

End MainSimple.

(* ================================================================== *)
(** ** Vocabulary of the statements *)

Module Spec.

(** The events of one [print_menu]. *)
Definition menu : list event :=
  map Stdout
    [ c_lit "\n=== Phase 3 Control Panel ===\n";
      c_lit "1. Generate Text\n";
      c_lit "2. System Status\n";
      c_lit "3. Start Frontend\n";
      c_lit "4. Debug Mode\n";
      c_lit "5. Agent Config\n";
      c_lit "6. Database Management\n";
      c_lit "7. Settings\n";
      c_lit "8. Exit\n";
      "Choice: "%string ].

(** A state with more events in its trace. *)
Definition emits (l : list event) (s : Main.state) : Main.state :=
  {| Main.stdin := Main.stdin s; Main.trace := Main.trace s ++ l;
     Main.input := Main.input s; Main.result := Main.result s;
     Main.choice := Main.choice s; Main.calls := Main.calls s |}.

Definition emits_simple (l : list event) (s : MainSimple.state)
  : MainSimple.state :=
  {| MainSimple.stdin := MainSimple.stdin s;
     MainSimple.trace := MainSimple.trace s ++ l;
     MainSimple.input := MainSimple.input s;
     MainSimple.choice := MainSimple.choice s |}.

(** No byte of [l] is a NUL, or a line feed. *)
Definition plain (l : list ascii) : Prop :=
  Forall (fun c => is_nul c = false /\ is_lf c = false) l.

Definition no_lf (l : list ascii) : Prop :=
  Forall (fun c => is_lf c = false) l.


(** The arrays of [main] have the sizes they are declared with. *)
Definition sized (s : Main.state) : Prop :=
  List.length (Main.input s) = Main.MAX_INPUT /\
  List.length (Main.result s) = Main.MAX_RESPONSE.

Definition fresh_response : Main.Response :=
  {| Main.data := None; Main.size := O |}.

(** The request [call_mcp_tool] sends for a tool and an arguments text. *)
Definition request_for (W : world) (tool a : string) : http_request :=
  Main.post_of
    (json_object_to_json_string
       (Main.build_request tool (json_tokener_parse W a))).

(** How the transfer of the call made in state [s] ends: the code
    [curl_easy_perform] returns and the response accumulated. *)
Definition performed (W : world) (tool a : string) (s : Main.state)
  : Z * Main.Response :=
  Main.curl_easy_perform
    (curl_transfer W (Main.calls s) (request_for W tool a)) fresh_response.

(** The body of the response: the blocks of the transfer, joined. *)
Definition response_text (t : transfer) : list ascii :=
  List.concat (map fst (blocks t)).

(** The remote endpoint cannot be reached: every transfer ends with
    [CURLE_COULDNT_CONNECT] and delivers nothing. *)
Definition unreachable (W : world) : Prop :=
  forall n rq, curl_transfer W n rq =
               {| blocks := []; code := CURLE_COULDNT_CONNECT |}.

(** The literals the mock variant prints, apart from the menu's. *)
Definition mock_literals : list string :=
  [ c_lit "Invalid input\n"; "Enter prompt: "%string;
    c_lit "Status: {\n"; c_lit "  `status`: `healthy`,\n";
    c_lit "  `server`: `phase3-admin`,\n"; c_lit "  `version`: `1.0.0`,\n";
    c_lit "  `frontend_running`: true\n"; c_lit "}\n";
    c_lit "Frontend: Started on port 8080\n"; "Debug level (0-3): "%string;
    c_lit "Config: {\n"; c_lit "  `model`: `gpt-4`,\n";
    c_lit "  `temperature`: 0.7,\n"; c_lit "  `max_tokens`: 1000\n";
    c_lit "Database: {\n"; c_lit "  `connected`: true,\n";
    c_lit "  `sessions`: 0,\n"; c_lit "  `settings`: 3\n";
    c_lit "Settings: {\n"; c_lit "  `debug_level`: 1,\n";
    c_lit "  `frontend_port`: 8080,\n"; c_lit "  `agent_model`: `gpt-4`\n";
    c_lit "Goodbye!\n"; c_lit "Invalid choice\n" ].

(** One event of the mock variant, given the variables as the turn leaves
    them: a fixed literal, or the text of [input] or the value of [choice]
    inside a fixed literal. *)
Definition mock_event (s' : MainSimple.state) (e : event) : Prop :=
  exists out, e = Stdout out /\
    (In out mock_literals \/
     (exists v, cstr (MainSimple.input s') = Some v /\
                out = ("Generated: Mock text for '" ++ v ++ c_lit "'\n")%string) \/
     out = ("Debug: Level set to " ++ dec (MainSimple.choice s') ++ c_lit "\n")%string).

(** A computation of a turn that never makes [main] return. *)
Definition goes_on (m : Main.M (option Z)) : Prop :=
  forall s c s', m s <> Main.Ok (Some c) s'.

Definition goes_on_simple (m : MainSimple.M (option Z)) : Prop :=
  forall s c s', m s <> MainSimple.Ok (Some c) s'.

(** The state a computation stops in. *)
Definition stopped {A} (r : Main.res A) : Main.state :=
  match r with Main.Ok _ s | Main.UB s => s end.

Definition stopped_simple {A} (r : MainSimple.res A) : MainSimple.state :=
  match r with MainSimple.Ok _ s | MainSimple.UB s => s end.

Definition goodbye : event := Stdout (c_lit "Goodbye!\n").

(** The text the specification gives for the body of the status request. *)
Definition status_body_as_specified : string :=
  c_lit "{`jsonrpc`:`2.0`,`method`:`tools/call`,`id`:1,`params`:{`name`:`get_status`,`arguments`:{}}}".

(** The body [json_object_to_json_string] produces for it. *)
Definition status_body : string :=
  c_lit "{ `jsonrpc`: `2.0`, `method`: `tools\/call`, `id`: 1, `params`: { `name`: `get_status`, `arguments`: { } } }".

(** A computation that does nothing to the outside but print. *)
Definition prints_only {A} (m : Main.M A) : Prop :=
  forall s, exists outs,
    Main.trace (stopped (m s)) = Main.trace s ++ map Stdout outs.

(** What the specification says of one call of the client: on a transfer
    that succeeds, 0 and the response text in the array, cut to the array;
    on one that fails, -1 and the array as it was. *)
Definition call_result_as_specified (W : world) (tool : string)
  (args : Main.cptr) (s : Main.state) : Prop :=
  match Main.load s args with
  | None => True
  | Some a =>
      let t := curl_transfer W (Main.calls s) (request_for W tool a) in
      exists r s',
        Main.call_mcp_tool W tool args Main.Result s = Main.Ok r s' /\
        (fst (performed W tool a s) = CURLE_OK ->
         r = 0 /\
         cstr (Main.result s') =
           Some (text (firstn (Main.MAX_RESPONSE - 1) (response_text t)))) /\
        (fst (performed W tool a s) <> CURLE_OK ->
         r = -1 /\ Main.result s' = Main.result s)
  end.

(** What the specification says of a turn that reads 2: one POST to the
    endpoint, with the JSON content type, whose body is the compact text. *)
Definition status_post_as_specified (W : world) (s : Main.state) : Prop :=
  posts (Main.trace (Main.final (Main.main_loop W 1 s))) =
  posts (Main.trace s) ++
  [ {| url := "http://localhost:8080/mcp";
       method := "POST";
       headers := ["Content-Type: application/json"%string];
       body := status_body_as_specified |} ].






(** The arguments text made of a prompt. *)
Definition prompt_args (line : list ascii) : string :=
  (c_lit "{`prompt`:`" ++ text line ++ c_lit "`}")%string.

(** What the specification says of a turn that reads 1 and then the line
    [line]: one call, of generate, with [line] between the quotes. *)
Definition prompt_call_as_specified (W : world) (s : Main.state)
  (line rest : list ascii) : Prop :=
  sized s -> no_lf line ->
  Main.stdin s = bytes "1" ++ LF :: line ++ LF :: rest ->
  rpc_calls (Main.trace (Main.final (Main.main_loop W 1 s))) =
  rpc_calls (Main.trace s) ++ [("generate"%string, Some (prompt_args line))].

(** *** Vocabulary of the further properties *)

(** A [Response] that holds the bytes [received]: [size] is their number
    and [data], once allocated, is those bytes and a terminator. *)
Definition accumulated (r : Main.Response) (received : list ascii) : Prop :=
  Main.size r = List.length received /\
  match Main.data r with
  | None => received = []
  | Some d => d = received ++ [NUL]
  end.

(** The text of a request: the envelope around the tool name, quoted and
    escaped as a JSON string, and the text of the arguments. *)
Definition envelope_text (tool arguments_text : string) : string :=
  (c_lit "{ `jsonrpc`: `2.0`, `method`: `tools\/call`, `id`: 1, `params`: { `name`: "
   ++ quoted JSON_C_TO_STRING_SPACED tool
   ++ c_lit ", `arguments`: " ++ arguments_text ++ " } }")%string.

(** The text json-c prints for a [json_object *]. *)
Definition json_text (v : option json_object) : string :=
  match v with
  | None => "null"%string
  | Some x => json_object_to_json_string x
  end.

(** The cases of the switch that ask for nothing more: the tool each one
    calls and the label it prints the answer after. *)
Definition plain_actions : list (Z * (string * string)) :=
  [ (2, ("get_status", "Status: "));
    (3, ("start_frontend", "Frontend: "));
    (5, ("get_agent_config", "Config: "));
    (6, ("db_status", "Database: "));
    (7, ("get_settings", "Settings: ")) ]%string.

(** What is left in [result], as a string, of a response body: its bytes up
    to the first NUL, 4095 of them at most. *)
Definition shown (body_ : list ascii) : string :=
  text (firstn (Main.MAX_RESPONSE - 1) (until_nul body_)).

(** A transfer whose blocks are all stored. *)
Definition stored (t : transfer) : Prop :=
  Forall (fun b => snd b = true) (blocks t).

(** What [fgets] leaves unread of a line typed into a 1024-byte array: what
    follows the line when the line and its line feed fit, else the line from
    its 1024th byte on. *)
Definition left_unread (line rest : list ascii) : list ascii :=
  if (List.length line <? Main.MAX_INPUT - 1)%nat then rest
  else skipn (Main.MAX_INPUT - 1) line ++ LF :: rest.

(** What [fgets] keeps of it. *)
Definition kept (line : list ascii) : list ascii :=
  firstn (Main.MAX_INPUT - 1) line.

(** A computation that leaves [f] of the state as it was. *)
Definition keeps {A X} (f : Main.state -> X) (m : Main.M A) : Prop :=
  forall s, f (stopped (m s)) = f s.

(** What comes after the call in case 1. *)
Definition after_generate (W : world) (r : Z) : Main.M (option Z) :=
  Main.bind
    (if r =? 0 then Main.printf_s "Result: " Main.Result (c_lit "\n")
     else Main.printf (c_lit "Error calling generate tool\n"))
    (fun _ => Main.ret None).

(** The arguments text made of a debug level. *)
Definition level_args (v : Z) : string :=
  (c_lit "{`level`:" ++ dec v ++ "}")%string.

(** An array that holds a string: there is a NUL in it. *)
Definition terminated (buf : list ascii) : Prop := cstr_bytes buf <> None.

(** The arrays of [main] have their declared sizes and hold strings. *)
Definition safe (s : Main.state) : Prop :=
  sized s /\ terminated (Main.input s) /\ terminated (Main.result s).

Definition safe_simple (s : MainSimple.state) : Prop :=
  List.length (MainSimple.input s) = MainSimple.INPUT_SIZE /\
  terminated (MainSimple.input s).

(** The next [scanf("%d")] meets a numeral that does not fit [int]. *)
Definition overflows (l : list ascii) : Prop :=
  fst (scanf_d l) = Unrepresentable.

(** Where a turn that starts on the input [l] can leave defined behaviour:
    at the [scanf] of the menu, or at the one of case 4. *)
Definition overflowing_turn (l : list ascii) : Prop :=
  overflows l \/
  exists rest, scanf_d l = (Assigned 4, rest) /\ overflows rest.

(** A computation that, from safe arrays, goes on with safe arrays. *)
Definition steady {A} (m : Main.M A) : Prop :=
  forall s, safe s -> exists a s', m s = Main.Ok a s' /\ safe s'.

Definition steady_simple {A} (m : MainSimple.M A) : Prop :=
  forall s, safe_simple s ->
            exists a s', m s = MainSimple.Ok a s' /\ safe_simple s'.

(** A computation that enters [call_mcp_tool] once at most, and sends no
    request but from such a call. *)
Definition one_call {A} (m : Main.M A) : Prop :=
  forall s, exists l,
    Main.trace (stopped (m s)) = Main.trace s ++ l /\
    (List.length (rpc_calls l) <= 1)%nat /\
    (List.length (posts l) <= List.length (rpc_calls l))%nat.

(** The answers of the mock variant that depend on nothing: what each of
    the cases 2, 3, 6 and 7 prints. *)
Definition mock_answers : list (Z * list string) :=
  [ (2, [ c_lit "Status: {\n"; c_lit "  `status`: `healthy`,\n";
          c_lit "  `server`: `phase3-admin`,\n"; c_lit "  `version`: `1.0.0`,\n";
          c_lit "  `frontend_running`: true\n"; c_lit "}\n" ]);
    (3, [ c_lit "Frontend: Started on port 8080\n" ]);
    (6, [ c_lit "Database: {\n"; c_lit "  `connected`: true,\n";
          c_lit "  `sessions`: 0,\n"; c_lit "  `settings`: 3\n"; c_lit "}\n" ]);
    (7, [ c_lit "Settings: {\n"; c_lit "  `debug_level`: 1,\n";
          c_lit "  `frontend_port`: 8080,\n"; c_lit "  `agent_model`: `gpt-4`\n";
          c_lit "}\n" ]) ].

End Spec.
Import Spec.

(* ================================================================== *)
(** ** Concrete worlds and states *)

Module Sample.

(** A tokener that knows the empty object only. *)
Definition parse_braces (a : string) : option json_object :=
  if String.eqb a "{}" then Some (json_obj []) else None.

Definition answering (reply : list (list ascii * bool)) : world :=
  {| json_tokener_parse := parse_braces;
     curl_easy_init := fun _ => true;
     curl_transfer := fun _ _ => {| blocks := reply; code := CURLE_OK |} |}.

(** The server answers with the text ok. *)
Definition w_ok : world := answering [(bytes "ok", true)].

(** The server answers with an empty body. *)
Definition w_empty : world := answering [].

(** Nobody listens on the port. *)
Definition w_down : world :=
  {| json_tokener_parse := parse_braces;
     curl_easy_init := fun _ => true;
     curl_transfer := fun _ _ =>
       {| blocks := []; code := CURLE_COULDNT_CONNECT |} |}.

(** [main] about to enter its loop, the arrays holding [in0] and [res0]
    followed by NULs. *)
Definition boot (typed : string) (in0 res0 : string) : Main.state :=
  {| Main.stdin := bytes (c_lit typed);
     Main.trace := [];
     Main.input := poke (bytes in0) (repeat NUL Main.MAX_INPUT);
     Main.result := poke (bytes res0) (repeat NUL Main.MAX_RESPONSE);
     Main.choice := 0;
     Main.calls := O |}.

Definition boot_simple (typed : string) : MainSimple.state :=
  {| MainSimple.stdin := bytes (c_lit typed);
     MainSimple.trace := [];
     MainSimple.input := repeat NUL MainSimple.INPUT_SIZE;
     MainSimple.choice := 0 |}.

Definition long_line : list ascii := repeat "a"%char 1024.

(** [main] about to enter its loop, with 1 and then the line [line] typed. *)
Definition boot_prompt (line : list ascii) : Main.state :=
  {| Main.stdin := bytes "1" ++ LF :: line ++ [LF];
     Main.trace := [];
     Main.input := repeat NUL Main.MAX_INPUT;
     Main.result := repeat NUL Main.MAX_RESPONSE;
     Main.choice := 0;
     Main.calls := O |}.

End Sample.
Import Sample.

(* ================================================================== *)
(** * Properties *)

(** ** The turn of the loop, unfolded *)

Lemma print_menu_run (s : Main.state) :
  Main.print_menu s = Main.Ok tt (emits menu s).
Proof.
  cbv [Main.print_menu Main.bind Main.printf Main.emit emits menu map
       Main.stdin Main.trace Main.input Main.result Main.choice Main.calls].
  rewrite <- !app_assoc. reflexivity.
Qed.

Lemma main_iter_run (W : world) (s : Main.state) :
  Main.main_iter W s =
  match scanf_d (Main.stdin s) with
  | (Assigned v, rest) =>
      Main.switch_choice W v (Main.set_choice v (Main.set_stdin rest (emits menu s)))
  | (Unrepresentable, rest) => Main.UB (Main.set_stdin rest (emits menu s))
  | (_, rest) =>
      Main.Ok None (Main.emit (Stdout (c_lit "Invalid input\n"))
                      (Main.set_stdin rest (emits menu s)))
  end.
Proof.
  unfold Main.main_iter, Main.bind at 1. rewrite print_menu_run.
  unfold Main.bind at 1, Main.scanf_choice.
  change (Main.stdin (emits menu s)) with (Main.stdin s).
  destruct (scanf_d (Main.stdin s)) as [[v| | |] rest]; reflexivity.
Qed.

Lemma print_menu_simple_run (s : MainSimple.state) :
  MainSimple.print_menu s = MainSimple.Ok tt (emits_simple menu s).
Proof.
  cbv [MainSimple.print_menu MainSimple.bind MainSimple.printf MainSimple.emit
       emits_simple menu map MainSimple.stdin MainSimple.trace MainSimple.input
       MainSimple.choice].
  rewrite <- !app_assoc. reflexivity.
Qed.

Lemma main_iter_simple_run (s : MainSimple.state) :
  MainSimple.main_iter s =
  match scanf_d (MainSimple.stdin s) with
  | (Assigned v, rest) =>
      MainSimple.switch_choice v
        (MainSimple.set_choice v (MainSimple.set_stdin rest (emits_simple menu s)))
  | (Unrepresentable, rest) =>
      MainSimple.UB (MainSimple.set_stdin rest (emits_simple menu s))
  | (_, rest) =>
      MainSimple.Ok None
        (MainSimple.emit (Stdout (c_lit "Invalid input\n"))
           (MainSimple.set_stdin rest (emits_simple menu s)))
  end.
Proof.
  unfold MainSimple.main_iter, MainSimple.bind at 1.
  rewrite print_menu_simple_run.
  unfold MainSimple.bind at 1, MainSimple.scanf_choice.
  change (MainSimple.stdin (emits_simple menu s)) with (MainSimple.stdin s).
  destruct (scanf_d (MainSimple.stdin s)) as [[v| | |] rest]; reflexivity.
Qed.





Lemma main_loop_S (W : world) (n : nat) (s : Main.state) :
  Main.main_loop W (S n) s =
  match Main.main_iter W s with
  | Main.Ok None s' => Main.main_loop W n s'
  | Main.Ok (Some c) s' => Main.Exited c s'
  | Main.UB s' => Main.Undefined s'
  end.
Proof. reflexivity. Qed.

Lemma main_loop_simple_S (n : nat) (s : MainSimple.state) :
  MainSimple.main_loop (S n) s =
  match MainSimple.main_iter s with
  | MainSimple.Ok None s' => MainSimple.main_loop n s'
  | MainSimple.Ok (Some c) s' => MainSimple.Exited c s'
  | MainSimple.UB s' => MainSimple.Undefined s'
  end.
Proof. reflexivity. Qed.

(* ------------------------------------------------------------------ *)
(** ** Input that selects nothing *)


(* ------------------------------------------------------------------ *)
(** ** Leaving the loop *)

Lemma goes_on_ret : goes_on (Main.ret None).
Proof. intros s c s' H. discriminate H. Qed.

Lemma goes_on_bind {A} (m : Main.M A) (k : A -> Main.M (option Z)) :
  (forall a, goes_on (k a)) -> goes_on (Main.bind m k).
Proof.
  intros Hk s c s' H. unfold Main.bind in H.
  destruct (m s) as [a s1|s1]; [exact (Hk a s1 c s' H) | discriminate H].
Qed.

Lemma goes_on_simple_ret : goes_on_simple (MainSimple.ret None).
Proof. intros s c s' H. discriminate H. Qed.

Lemma goes_on_simple_bind {A} (m : MainSimple.M A)
  (k : A -> MainSimple.M (option Z)) :
  (forall a, goes_on_simple (k a)) -> goes_on_simple (MainSimple.bind m k).
Proof.
  intros Hk s c s' H. unfold MainSimple.bind in H.
  destruct (m s) as [a s1|s1]; [exact (Hk a s1 c s' H) | discriminate H].
Qed.

(** [main] returns from case 8 only, and with 0. *)
Lemma switch_exit (W : world) (v : Z) (s s' : Main.state) (c : Z) :
  Main.switch_choice W v s = Main.Ok (Some c) s' ->
  v = 8 /\ c = 0 /\ s' = Main.emit goodbye s.
Proof.
  intros H.
  assert (G : v <> 8 -> goes_on (Main.switch_choice W v)).
  { intros Hv. destruct v as [|p|p];
      [| do 4 (try destruct p as [p|p|]); try congruence |];
      unfold Main.switch_choice;
      repeat (apply goes_on_bind; intros); apply goes_on_ret. }
  destruct (Z.eq_dec v 8) as [->|Hv].
  - injection H as <- <-. auto.
  - exfalso. exact (G Hv s c s' H).
Qed.

Lemma switch_simple_exit (v : Z) (s s' : MainSimple.state) (c : Z) :
  MainSimple.switch_choice v s = MainSimple.Ok (Some c) s' ->
  v = 8 /\ c = 0 /\ s' = MainSimple.emit goodbye s.
Proof.
  intros H.
  assert (G : v <> 8 -> goes_on_simple (MainSimple.switch_choice v)).
  { intros Hv. destruct v as [|p|p];
      [| do 4 (try destruct p as [p|p|]); try congruence |];
      unfold MainSimple.switch_choice;
      repeat (apply goes_on_simple_bind; intros); apply goes_on_simple_ret. }
  destruct (Z.eq_dec v 8) as [->|Hv].
  - injection H as <- <-. auto.
  - exfalso. exact (G Hv s c s' H).
Qed.

Lemma main_iter_exit (W : world) (s s' : Main.state) (c : Z) :
  Main.main_iter W s = Main.Ok (Some c) s' ->
  c = 0 /\ exists rest, scanf_d (Main.stdin s) = (Assigned 8, rest) /\
    s' = Main.emit goodbye (Main.set_choice 8 (Main.set_stdin rest (emits menu s))).
Proof.
  rewrite main_iter_run.
  destruct (scanf_d (Main.stdin s)) as [[v| | |] rest]; try discriminate.
  intros H. apply switch_exit in H. destruct H as [-> [-> ->]].
  split; [reflexivity|]. exists rest. split; reflexivity.
Qed.

Lemma main_iter_simple_exit (s s' : MainSimple.state) (c : Z) :
  MainSimple.main_iter s = MainSimple.Ok (Some c) s' ->
  c = 0 /\ exists rest, scanf_d (MainSimple.stdin s) = (Assigned 8, rest) /\
    s' = MainSimple.emit goodbye
           (MainSimple.set_choice 8 (MainSimple.set_stdin rest (emits_simple menu s))).
Proof.
  rewrite main_iter_simple_run.
  destruct (scanf_d (MainSimple.stdin s)) as [[v| | |] rest]; try discriminate.
  intros H. apply switch_simple_exit in H. destruct H as [-> [-> ->]].
  split; [reflexivity|]. exists rest. split; reflexivity.
Qed.

Lemma main_loop_exit (W : world) (fuel : nat) :
  forall (s s' : Main.state) (c : Z),
  Main.main_loop W fuel s = Main.Exited c s' ->
  c = 0 /\ exists k s0 rest, (k < fuel)%nat /\
    Main.main_loop W k s = Main.Running s0 /\
    scanf_d (Main.stdin s0) = (Assigned 8, rest) /\
    s' = Main.emit goodbye (Main.set_choice 8 (Main.set_stdin rest (emits menu s0))).
Proof.
  induction fuel as [|n IH]; intros s s' c H; [discriminate|].
  rewrite main_loop_S in H.
  destruct (Main.main_iter W s) as [[c1|] s1|s1] eqn:E; try discriminate.
  - injection H as <- <-. apply main_iter_exit in E.
    destruct E as [-> [rest [H1 H2]]]. split; [reflexivity|].
    exists O, s, rest. repeat split; [lia | assumption | assumption].
  - apply IH in H. destruct H as [-> [k [s0 [rest [Hk [Hr [H1 H2]]]]]]].
    split; [reflexivity|]. exists (S k), s0, rest.
    repeat split; [lia | | assumption | assumption].
    rewrite main_loop_S, E. exact Hr.
Qed.

Lemma main_loop_simple_exit (fuel : nat) :
  forall (s s' : MainSimple.state) (c : Z),
  MainSimple.main_loop fuel s = MainSimple.Exited c s' ->
  c = 0 /\ exists k s0 rest, (k < fuel)%nat /\
    MainSimple.main_loop k s = MainSimple.Running s0 /\
    scanf_d (MainSimple.stdin s0) = (Assigned 8, rest) /\
    s' = MainSimple.emit goodbye
           (MainSimple.set_choice 8 (MainSimple.set_stdin rest (emits_simple menu s0))).
Proof.
  induction fuel as [|n IH]; intros s s' c H; [discriminate|].
  rewrite main_loop_simple_S in H.
  destruct (MainSimple.main_iter s) as [[c1|] s1|s1] eqn:E; try discriminate.
  - injection H as <- <-. apply main_iter_simple_exit in E.
    destruct E as [-> [rest [H1 H2]]]. split; [reflexivity|].
    exists O, s, rest. repeat split; [lia | assumption | assumption].
  - apply IH in H. destruct H as [-> [k [s0 [rest [Hk [Hr [H1 H2]]]]]]].
    split; [reflexivity|]. exists (S k), s0, rest.
    repeat split; [lia | | assumption | assumption].
    rewrite main_loop_simple_S, E. exact Hr.
Qed.

Lemma main_loop_eof (W : world) (fuel : nat) :
  forall s, Main.stdin s = [] -> exists s', Main.main_loop W fuel s = Main.Running s'.
Proof.
  induction fuel as [|n IH]; intros s H; [exists s; reflexivity|].
  rewrite main_loop_S, main_iter_run, H. apply IH. reflexivity.
Qed.

Lemma main_loop_simple_eof (fuel : nat) :
  forall s, MainSimple.stdin s = [] ->
            exists s', MainSimple.main_loop fuel s = MainSimple.Running s'.
Proof.
  induction fuel as [|n IH]; intros s H; [exists s; reflexivity|].
  rewrite main_loop_simple_S, main_iter_simple_run, H. apply IH. reflexivity.
Qed.

(** C6. In both variants: a turn that reads 8 prints the menu and Goodbye!
    and makes [main] return 0, so that nothing more is printed however long
    the program is let run; and [main] returns in no other way: a run that
    has returned has returned 0, from a turn that read 8 at the menu and
    printed Goodbye! last.  In particular at the end of the input the loop
    goes on for ever. *)
Theorem exit_only_by_choice_8 (W : world) :
  ((forall (s : Main.state) rest, scanf_d (Main.stdin s) = (Assigned 8, rest) ->
      forall n, Main.main_loop W (S n) s =
        Main.Exited 0 (Main.emit goodbye
                         (Main.set_choice 8 (Main.set_stdin rest (emits menu s))))) /\
   (forall fuel (s s' : Main.state) c,
      Main.main_loop W fuel s = Main.Exited c s' ->
      c = 0 /\ exists k s0 rest, (k < fuel)%nat /\
        Main.main_loop W k s = Main.Running s0 /\
        scanf_d (Main.stdin s0) = (Assigned 8, rest) /\
        s' = Main.emit goodbye
               (Main.set_choice 8 (Main.set_stdin rest (emits menu s0)))) /\
   (forall fuel (s : Main.state), Main.stdin s = [] ->
      exists s', Main.main_loop W fuel s = Main.Running s')) /\
  ((forall (s : MainSimple.state) rest,
      scanf_d (MainSimple.stdin s) = (Assigned 8, rest) ->
      forall n, MainSimple.main_loop (S n) s =
        MainSimple.Exited 0
          (MainSimple.emit goodbye
             (MainSimple.set_choice 8
                (MainSimple.set_stdin rest (emits_simple menu s))))) /\
   (forall fuel (s s' : MainSimple.state) c,
      MainSimple.main_loop fuel s = MainSimple.Exited c s' ->
      c = 0 /\ exists k s0 rest, (k < fuel)%nat /\
        MainSimple.main_loop k s = MainSimple.Running s0 /\
        scanf_d (MainSimple.stdin s0) = (Assigned 8, rest) /\
        s' = MainSimple.emit goodbye
               (MainSimple.set_choice 8
                  (MainSimple.set_stdin rest (emits_simple menu s0)))) /\
   (forall fuel (s : MainSimple.state), MainSimple.stdin s = [] ->
      exists s', MainSimple.main_loop fuel s = MainSimple.Running s')).
Proof.
  split; split.
  - intros s rest H n. rewrite main_loop_S, main_iter_run, H. reflexivity.
  - split.
    + intros fuel s s' c. apply main_loop_exit.
    + intros fuel s. apply main_loop_eof.
  - intros s rest H n. rewrite main_loop_simple_S, main_iter_simple_run, H. reflexivity.
  - split.
    + intros fuel s s' c. apply main_loop_simple_exit.
    + intros fuel s. apply main_loop_simple_eof.
Qed.

(* ------------------------------------------------------------------ *)
(** ** The mock variant *)

Ltac run_simple :=
  cbv [MainSimple.switch_choice MainSimple.bind MainSimple.printf MainSimple.ret
       MainSimple.emit MainSimple.set_choice MainSimple.set_stdin
       MainSimple.set_input MainSimple.get_choice MainSimple.do_getchar
       MainSimple.scanf_choice MainSimple.fgets_input MainSimple.chomp_input
       MainSimple.printf_input
       emits_simple stopped_simple
       MainSimple.stdin MainSimple.trace MainSimple.input MainSimple.choice].

(** C7. In the mock variant a turn that reads 5 prints, after the menu, the
    five literals of case 5 and nothing else: the line that opens the block,
    the three lines of the fields model, temperature and max_tokens, and the
    line that closes it. *)
Theorem mock_config_block (s : MainSimple.state) (rest : list ascii) :
  scanf_d (MainSimple.stdin s) = (Assigned 5, rest) ->
  let block := [ Stdout (c_lit "Config: {\n");
                 Stdout (c_lit "  `model`: `gpt-4`,\n");
                 Stdout (c_lit "  `temperature`: 0.7,\n");
                 Stdout (c_lit "  `max_tokens`: 1000\n");
                 Stdout (c_lit "}\n") ] in
  MainSimple.main_iter s =
    MainSimple.Ok None
      (emits_simple block
         (MainSimple.set_choice 5
            (MainSimple.set_stdin rest (emits_simple menu s)))) /\
  printed block =
    c_lit "Config: {\n  `model`: `gpt-4`,\n  `temperature`: 0.7,\n  `max_tokens`: 1000\n}\n".
Proof.
  intros H block. split; [|reflexivity].
  rewrite main_iter_simple_run, H. subst block. run_simple.
  rewrite <- !app_assoc. reflexivity.
Qed.

Lemma mock_literal (s' : MainSimple.state) (out : string) :
  In out mock_literals -> mock_event s' (Stdout out).
Proof. intros H. exists out. split; [reflexivity | left; exact H]. Qed.

Ltac in_literals :=
  vm_compute;
  repeat match goal with
         | |- _ \/ _ => first [left; reflexivity | right]
         end.

Ltac literals :=
  repeat (constructor; [apply mock_literal; in_literals|]);
  try constructor.

Lemma mock_switch_prompt (s : MainSimple.state) :
  let s' := stopped_simple (MainSimple.switch_choice 1 s) in
  exists evs, MainSimple.trace s' = MainSimple.trace s ++ evs /\
              Forall (mock_event s') evs.
Proof.
  destruct s as [si tr inp ch].
  run_simple.
  destruct (fgets _ _ _) as [b rest2].
  destruct (strcspn_lf b) as [i|].
  - destruct (cstr (clear_at i b)) as [t|] eqn:Ec.
    + rewrite <- app_assoc. eexists. split; [reflexivity|].
      constructor; [apply mock_literal; in_literals|].
      constructor; [|constructor].
      eexists. split; [reflexivity|]. right; left. exists t.
      split; [exact Ec | reflexivity].
    + eexists. split; [reflexivity|]. literals.
  - eexists. split; [reflexivity|]. literals.
Qed.

Lemma mock_switch_debug (s : MainSimple.state) :
  let s' := stopped_simple (MainSimple.switch_choice 4 s) in
  exists evs, MainSimple.trace s' = MainSimple.trace s ++ evs /\
              Forall (mock_event s') evs.
Proof.
  destruct s as [si tr inp ch].
  run_simple.
  destruct (scanf_d si) as [[w| | |] rest2].
  4: { eexists. split; [reflexivity|]. literals. }
  all: rewrite <- app_assoc; eexists; (split; [reflexivity|]);
       constructor; [apply mock_literal; in_literals|];
       constructor; [|constructor];
       eexists; split; [reflexivity|]; right; right; reflexivity.
Qed.

Lemma mock_switch (v : Z) (s : MainSimple.state) :
  let s' := stopped_simple (MainSimple.switch_choice v s) in
  exists evs, MainSimple.trace s' = MainSimple.trace s ++ evs /\
              Forall (mock_event s') evs.
Proof.
  destruct (Z.eq_dec v 1) as [->|H1]; [apply mock_switch_prompt|].
  destruct (Z.eq_dec v 4) as [->|H4]; [apply mock_switch_debug|].
  destruct s as [si tr inp ch].
  destruct v as [|p|p]; [| do 4 (try destruct p as [p|p|]) |];
    try congruence;
    run_simple; rewrite <- ?app_assoc; eexists; (split; [reflexivity|]); literals.
Qed.

(** What one turn of the mock variant adds to the trace. *)
Lemma mock_turn (s : MainSimple.state) :
  let s' := stopped_simple (MainSimple.main_iter s) in
  exists evs, MainSimple.trace s' = MainSimple.trace s ++ menu ++ evs /\
              Forall (mock_event s') evs.
Proof.
  rewrite main_iter_simple_run.
  destruct (scanf_d (MainSimple.stdin s)) as [[v| | |] rest].
  - destruct (mock_switch v (MainSimple.set_choice v
                (MainSimple.set_stdin rest (emits_simple menu s))))
      as [evs [H1 H2]].
    exists evs. split; [|exact H2].
    rewrite H1. apply eq_sym, app_assoc.
  - destruct s as [si tr inp ch]. run_simple. rewrite <- ?app_assoc.
    eexists; split; [reflexivity | literals].
  - destruct s as [si tr inp ch]. run_simple. rewrite <- ?app_assoc.
    eexists; split; [reflexivity | literals].
  - destruct s as [si tr inp ch]. run_simple. exists [].
    rewrite app_nil_r. split; [reflexivity | constructor].
Qed.

(** C8. The mock variant never touches the network: whatever the input and
    however long it runs, everything it adds to the trace is a [printf].
    Each turn prints the menu and then only fixed literals, except that case 1
    prints the text of [input] and case 4 the value of [choice] inside a fixed
    literal. *)
Theorem mock_never_uses_network :
  (forall fuel (s : MainSimple.state),
      let s' := MainSimple.final (MainSimple.main fuel s) in
      (exists outs, MainSimple.trace s' = MainSimple.trace s ++ map Stdout outs) /\
      posts (MainSimple.trace s') = posts (MainSimple.trace s) /\
      rpc_calls (MainSimple.trace s') = rpc_calls (MainSimple.trace s)) /\
  (forall s : MainSimple.state,
      let s' := stopped_simple (MainSimple.main_iter s) in
      exists evs, MainSimple.trace s' = MainSimple.trace s ++ menu ++ evs /\
                  Forall (mock_event s') evs).
Proof.
  assert (turn : forall s, exists outs,
             MainSimple.trace (stopped_simple (MainSimple.main_iter s)) =
             MainSimple.trace s ++ map Stdout outs).
  { intros s. destruct (mock_turn s) as [evs [H1 H2]]. cbv zeta in H1, H2.
    assert (E : exists outs, evs = map Stdout outs).
    { clear H1. induction H2 as [|e l He _ IH]; [exists []; reflexivity|].
      destruct He as [out [-> _]]. destruct IH as [outs ->].
      exists (out :: outs). reflexivity. }
    destruct E as [outs ->]. rewrite H1. unfold menu. rewrite <- map_app.
    eexists. reflexivity. }
  assert (loop : forall fuel s, exists outs,
             MainSimple.trace (MainSimple.final (MainSimple.main_loop fuel s)) =
             MainSimple.trace s ++ map Stdout outs).
  { induction fuel as [|n IH]; intros s.
    - exists []. simpl. rewrite app_nil_r. reflexivity.
    - rewrite main_loop_simple_S. destruct (turn s) as [o1 H1].
      destruct (MainSimple.main_iter s) as [[c|] s1|s1]; simpl in H1 |- *.
      + exists o1. exact H1.
      + destruct (IH s1) as [o2 H2]. exists (o1 ++ o2).
        rewrite H2, H1, map_app, app_assoc. reflexivity.
      + exists o1. exact H1. }
  assert (whole : forall fuel s, exists outs,
             MainSimple.trace (MainSimple.final (MainSimple.main fuel s)) =
             MainSimple.trace s ++ map Stdout outs).
  { intros fuel s. unfold MainSimple.main, MainSimple.bind, MainSimple.printf.
    destruct (loop fuel
      (MainSimple.emit (Stdout (c_lit "Note: This is a test version with mock responses\n"))
         (MainSimple.emit (Stdout (c_lit "Phase 3 C Frontend v1.0 (Test Mode)\n")) s)))
      as [outs H].
    rewrite H. simpl. rewrite <- !app_assoc. simpl.
    exists (c_lit "Phase 3 C Frontend v1.0 (Test Mode)\n"
            :: c_lit "Note: This is a test version with mock responses\n" :: outs).
    reflexivity. }
  split; [|exact mock_turn].
  intros fuel s s'. destruct (whole fuel s) as [outs H]. fold s' in H.
  split; [exists outs; exact H|]. rewrite H.
  unfold posts, rpc_calls. rewrite !flat_map_app.
  assert (Z1 : forall l, flat_map (fun e => match e with HttpPost rq => [rq] | _ => [] end)
                  (map Stdout l) = []).
  { induction l; simpl; auto. }
  assert (Z2 : forall l, flat_map (fun e => match e with RpcCall t a => [(t, a)] | _ => [] end)
                  (map Stdout l) = []).
  { induction l; simpl; auto. }
  rewrite Z1, Z2, !app_nil_r. split; reflexivity.
Qed.

(* ------------------------------------------------------------------ *)
(** ** Strings in arrays *)

Lemma until_nul_clean (l : list ascii) :
  Forall (fun c => is_nul c = false) (until_nul l).
Proof.
  induction l as [|c t IH]; simpl; [constructor|].
  destruct (is_nul c) eqn:E; constructor; assumption.
Qed.

Lemma until_nul_id (l : list ascii) :
  Forall (fun c => is_nul c = false) l -> until_nul l = l.
Proof.
  induction 1 as [|c t Hc _ IH]; simpl; [reflexivity|].
  rewrite Hc, IH. reflexivity.
Qed.

Lemma until_nul_terminated (l r : list ascii) :
  until_nul (l ++ NUL :: r) = until_nul l.
Proof.
  induction l as [|c t IH]; simpl; [reflexivity|].
  destruct (is_nul c); [reflexivity | rewrite IH; reflexivity].
Qed.

(** A NUL-free run followed by a NUL is the string of the array. *)
Lemma cstr_bytes_terminated (l r : list ascii) :
  Forall (fun c => is_nul c = false) l ->
  cstr_bytes (l ++ NUL :: r) = Some l.
Proof.
  induction 1 as [|c t Hc _ IH]; simpl; [reflexivity|].
  rewrite Hc, IH. reflexivity.
Qed.

Lemma Forall_firstn {A} (P : A -> Prop) (n : nat) (l : list A) :
  Forall P l -> Forall P (firstn n l).
Proof.
  intros H. revert n. induction H as [|x t Hx _ IH]; intros [|n]; simpl;
    constructor; auto.
Qed.

(** What the array holds after [strncpy] of [n] bytes and the store of a
    terminator behind them. *)
Lemma cstr_strncpy (d rest : list ascii) (n : nat) :
  cstr ((strncpy_bytes d n ++ [NUL]) ++ rest) =
  Some (text (firstn n (until_nul d))).
Proof.
  unfold cstr, strncpy_bytes.
  set (s := firstn n (until_nul d)).
  assert (Hs : Forall (fun c => is_nul c = false) s)
    by (apply Forall_firstn, until_nul_clean).
  rewrite <- !app_assoc.
  destruct (n - List.length s)%nat as [|k]; simpl;
    rewrite cstr_bytes_terminated by exact Hs; reflexivity.
Qed.

Lemma strncpy_length (d : list ascii) (n : nat) :
  List.length (strncpy_bytes d n) = n.
Proof.
  unfold strncpy_bytes. rewrite length_app, repeat_length.
  pose proof (firstn_le_length n (until_nul d)). lia.
Qed.

(* ------------------------------------------------------------------ *)
(** ** The client, unfolded *)

Lemma posts_app (l m : list event) : posts (l ++ m) = posts l ++ posts m.
Proof. apply flat_map_app. Qed.

Lemma rpc_calls_app (l m : list event) :
  rpc_calls (l ++ m) = rpc_calls l ++ rpc_calls m.
Proof. apply flat_map_app. Qed.

Lemma call_mcp_tool_run (W : world) (tool : string) (args dst : Main.cptr)
  (s : Main.state) :
  Main.call_mcp_tool W tool args dst s =
  let s1 := Main.count_call (Main.emit (RpcCall tool (Main.load s args)) s) in
  if negb (curl_easy_init W (Main.calls s)) then Main.Ok (-1) s1
  else
    match Main.load s args with
    | None => Main.UB s1
    | Some a =>
        let s2 := Main.emit (HttpPost (request_for W tool a)) s1 in
        let (res_, response) := performed W tool a s in
        match (res_ =? CURLE_OK), Main.data response with
        | true, Some d =>
            match Main.write dst
                    (strncpy_bytes d (Main.MAX_RESPONSE - 1) ++ [NUL]) s2 with
            | Main.Ok _ s3 => Main.Ok 0 s3
            | Main.UB s3 => Main.UB s3
            end
        | _, _ => Main.Ok (if res_ =? CURLE_OK then 0 else -1) s2
        end
    end.
Proof.
  destruct s as [si tr inp res cho n].
  unfold Main.call_mcp_tool, performed, request_for, fresh_response.
  cbv [Main.bind Main.log_call Main.get_calls Main.tick Main.ret Main.log
       Main.read_str Main.emit Main.count_call
       Main.stdin Main.trace Main.input Main.result Main.choice Main.calls].
  destruct (curl_easy_init W n); [|reflexivity]. cbv [negb].
  assert (L : forall tr' n', Main.load
            {| Main.stdin := si; Main.trace := tr'; Main.input := inp;
               Main.result := res; Main.choice := cho; Main.calls := n' |} args =
            Main.load
            {| Main.stdin := si; Main.trace := tr; Main.input := inp;
               Main.result := res; Main.choice := cho; Main.calls := n |} args)
    by (intros; destruct args; reflexivity).
  rewrite L.
  destruct (Main.load _ args) as [a|]; [|reflexivity].
  destruct (Main.curl_easy_perform _ _) as [r rsp].
  destruct (r =? CURLE_OK); [|reflexivity].
  destruct (Main.data rsp) as [d|]; [|reflexivity].
  destruct (Main.write dst _ _); reflexivity.
Qed.

Lemma deliver_text (bl : list (list ascii * bool)) (kept : list ascii) :
  Forall (fun b => snd b = true) bl -> bl <> [] ->
  forall d,
  (match d with Some x => firstn (List.length kept) x = kept | None => kept = [] end) ->
  Main.deliver bl {| Main.data := d; Main.size := List.length kept |} =
  (true, {| Main.data := Some (kept ++ List.concat (map fst bl) ++ [NUL]);
            Main.size := List.length (kept ++ List.concat (map fst bl)) |}).
Proof.
  intros Hall. revert kept. induction Hall as [|[c ok] t Hok Hall IH];
    intros kept Hne d Hd; [congruence|].
  simpl in Hok. subst ok. simpl.
  unfold Main.WriteCallback. simpl negb. cbv iota.
  cbv [Main.data Main.size]. rewrite !Nat.add_0_r, Nat.eqb_refl, firstn_all.
  assert (K : match d with Some x => firstn (List.length kept) x | None => [] end = kept).
  { destruct d; [exact Hd | symmetry; exact Hd]. }
  rewrite K.
  destruct t as [|b t'].
  - simpl. rewrite app_nil_r, length_app. reflexivity.
  - replace (List.length kept + List.length c)%nat with (List.length (kept ++ c))
      by apply length_app.
    rewrite IH; [| discriminate |].
    + rewrite <- !app_assoc. reflexivity.
    + rewrite app_assoc, firstn_app, firstn_all, Nat.sub_diag. simpl.
      apply app_nil_r.
Qed.

(* ------------------------------------------------------------------ *)
(** ** What a call leaves in the result array *)

Lemma write_result_full (b : list ascii) (s : Main.state) :
  List.length b = List.length (Main.result s) ->
  Main.write Main.Result b s = Main.Ok tt (Main.set_result b s).
Proof.
  intros H. unfold Main.write. rewrite H, Nat.leb_refl.
  unfold poke. rewrite H, skipn_all, app_nil_r. reflexivity.
Qed.

(** C1. One call of [call_mcp_tool] that writes into [result], in a state
    where the arguments are a string and the array has its 4096 bytes.
    Without a curl handle, or when the transfer does not end with CURLE_OK,
    it returns -1 and leaves the array as it was.  When the transfer ends
    with CURLE_OK and the write callback has stored something, it returns 0
    and the array holds the bytes received up to their first NUL, cut to
    4095, then NULs to its end.  When the transfer ends with CURLE_OK and
    nothing was stored (an empty body), it returns 0 and the array is left
    as it was.  What the callback stores, when its allocations succeed, is
    the blocks of the response joined, with a terminator. *)
Theorem call_mcp_tool_result (W : world) (tool : string) (args : Main.cptr)
  (s : Main.state) (a : string) :
  List.length (Main.result s) = Main.MAX_RESPONSE ->
  Main.load s args = Some a ->
  let t := curl_transfer W (Main.calls s) (request_for W tool a) in
  let res_ := fst (performed W tool a s) in
  let response := snd (performed W tool a s) in
  (curl_easy_init W (Main.calls s) = false ->
   exists s', Main.call_mcp_tool W tool args Main.Result s = Main.Ok (-1) s' /\
              Main.result s' = Main.result s) /\
  (curl_easy_init W (Main.calls s) = true -> res_ <> CURLE_OK ->
   exists s', Main.call_mcp_tool W tool args Main.Result s = Main.Ok (-1) s' /\
              Main.result s' = Main.result s) /\
  (curl_easy_init W (Main.calls s) = true -> res_ = CURLE_OK ->
   Main.data response = None ->
   exists s', Main.call_mcp_tool W tool args Main.Result s = Main.Ok 0 s' /\
              Main.result s' = Main.result s) /\
  (curl_easy_init W (Main.calls s) = true -> res_ = CURLE_OK ->
   forall d, Main.data response = Some d ->
   exists s', Main.call_mcp_tool W tool args Main.Result s = Main.Ok 0 s' /\
              Main.result s' = strncpy_bytes d (Main.MAX_RESPONSE - 1) ++ [NUL] /\
              cstr (Main.result s') =
                Some (text (firstn (Main.MAX_RESPONSE - 1) (until_nul d)))) /\
  (Forall (fun b => snd b = true) (blocks t) ->
   res_ = code t /\
   response = match blocks t with
              | [] => fresh_response
              | _ :: _ =>
                  {| Main.data := Some (response_text t ++ [NUL]);
                     Main.size := List.length (response_text t) |}
              end).
Proof.
  intros Hlen Ha t res_ response.
  pose proof (call_mcp_tool_run W tool args Main.Result s) as E.
  cbv zeta in E. rewrite Ha in E.
  fold t in E. subst res_ response.
  destruct (performed W tool a s) as [r rsp] eqn:Ep. simpl fst. simpl snd.
  repeat split.
  - intros Hi. rewrite Hi in E. simpl in E. eexists. split; [exact E|reflexivity].
  - intros Hi Hr. rewrite Hi in E. simpl negb in E. cbv iota in E.
    apply Z.eqb_neq in Hr. rewrite Hr in E.
    eexists. split; [exact E|reflexivity].
  - intros Hi Hr Hd. rewrite Hi in E. simpl negb in E. cbv iota in E.
    subst r. rewrite Hd in E. simpl in E.
    eexists. split; [exact E|reflexivity].
  - intros Hi Hr d Hd. rewrite Hi in E. simpl negb in E. cbv iota in E.
    subst r. rewrite Hd in E. rewrite Z.eqb_refl in E.
    rewrite write_result_full in E.
    + eexists. split; [exact E|]. split; [reflexivity|].
      unfold Main.set_result, Main.result.
      rewrite <- (app_nil_r (_ ++ [NUL])). apply cstr_strncpy.
    + rewrite length_app, strncpy_length. simpl Main.result.
      rewrite Hlen. reflexivity.
  - unfold performed, Main.curl_easy_perform in Ep. fold t in Ep.
    destruct (blocks t) as [|b bl] eqn:Eb.
    + simpl in Ep. injection Ep as <- <-. reflexivity.
    + pose proof (deliver_text (b :: bl) [] H ltac:(discriminate) None eq_refl) as D.
      unfold fresh_response in Ep.
      change (List.length (@nil ascii)) with O in D. rewrite D in Ep.
      injection Ep as <- <-. reflexivity.
  - unfold performed, Main.curl_easy_perform in Ep. fold t in Ep.
    destruct (blocks t) as [|b bl] eqn:Eb.
    + simpl in Ep. injection Ep as <- <-. reflexivity.
    + pose proof (deliver_text (b :: bl) [] H ltac:(discriminate) None eq_refl) as D.
      unfold fresh_response in Ep.
      change (List.length (@nil ascii)) with O in D. rewrite D in Ep.
      injection Ep as <- <-. unfold response_text. rewrite Eb. reflexivity.
Qed.

(* ------------------------------------------------------------------ *)
(** ** Arguments and result in one array *)

(** C9. [call_mcp_tool] depends on its [args] pointer only through the
    string it designates on entry: two pointers to equal strings give the
    same call, with the same request, value and final state.  So passing
    [result] as both arguments and destination, as cases 1 and 4 do, gives
    what passing a separate copy of the arguments would give: the arguments
    are parsed into the request before [result] is written. *)
Theorem args_read_before_result_written (W : world) (tool : string)
  (s : Main.state) :
  (forall (p q dst : Main.cptr),
      Main.load s p = Main.load s q ->
      Main.call_mcp_tool W tool p dst s = Main.call_mcp_tool W tool q dst s) /\
  (forall a, Main.load s Main.Result = Some a ->
      Main.call_mcp_tool W tool Main.Result Main.Result s =
      Main.call_mcp_tool W tool (Main.Lit a) Main.Result s).
Proof.
  assert (G : forall p q dst, Main.load s p = Main.load s q ->
      Main.call_mcp_tool W tool p dst s = Main.call_mcp_tool W tool q dst s).
  { intros p q dst H. rewrite !call_mcp_tool_run. cbv zeta. rewrite H.
    reflexivity. }
  split; [exact G|]. intros a Ha. apply G. exact Ha.
Qed.

(* ------------------------------------------------------------------ *)
(** ** What a turn of the networked variant sends *)

Lemma final_one (W : world) (s : Main.state) :
  Main.final (Main.main_loop W 1 s) = stopped (Main.main_iter W s).
Proof.
  rewrite main_loop_S. destruct (Main.main_iter W s) as [[c|] s'|s']; reflexivity.
Qed.

Lemma write_trace (p : Main.cptr) (b : list ascii) (s : Main.state) :
  Main.trace (stopped (Main.write p b s)) = Main.trace s.
Proof.
  unfold Main.write. destruct p; [reflexivity| |];
    destruct (_ <=? _)%nat; reflexivity.
Qed.

(** The events of one call: its entry, and the request if a handle was
    obtained and the arguments are a string. *)
Lemma call_trace (W : world) (tool : string) (args dst : Main.cptr)
  (s : Main.state) :
  Main.trace (stopped (Main.call_mcp_tool W tool args dst s)) =
  Main.trace s ++
  RpcCall tool (Main.load s args) ::
  (if curl_easy_init W (Main.calls s) then
     match Main.load s args with
     | Some a => [HttpPost (request_for W tool a)]
     | None => []
     end
   else []).
Proof.
  rewrite call_mcp_tool_run. cbv zeta.
  destruct (curl_easy_init W (Main.calls s)); [|reflexivity]. simpl negb. cbv iota.
  destruct (Main.load s args) as [a|]; [|reflexivity].
  destruct (performed W tool a s) as [r rsp].
  assert (T : Main.trace (Main.emit (HttpPost (request_for W tool a))
                (Main.count_call (Main.emit (RpcCall tool (Some a)) s))) =
              Main.trace s ++ [RpcCall tool (Some a); HttpPost (request_for W tool a)]).
  { simpl. rewrite <- app_assoc. reflexivity. }
  destruct (r =? CURLE_OK); [|exact T].
  destruct (Main.data rsp) as [d|]; [|exact T].
  match goal with |- context [Main.write ?p ?b ?x] =>
    pose proof (write_trace p b x) as Wt; destruct (Main.write p b x) end;
    simpl in Wt |- *; rewrite Wt; exact T.
Qed.

Lemma prints_only_ret {A} (a : A) : prints_only (Main.ret a).
Proof. intros s. exists []. simpl. rewrite app_nil_r. reflexivity. Qed.

Lemma prints_only_printf (out : string) : prints_only (Main.printf out).
Proof. intros s. exists [out]. reflexivity. Qed.

Lemma prints_only_printf_s (pre post : string) (p : Main.cptr) :
  prints_only (Main.printf_s pre p post).
Proof.
  intros s. unfold Main.printf_s, Main.bind, Main.read_str.
  destruct (Main.load s p) as [v|].
  - eexists [_]. reflexivity.
  - exists []. simpl. rewrite app_nil_r. reflexivity.
Qed.

(** After [m], a continuation that only prints adds only prints. *)
Lemma bind_prints {A B} (m : Main.M A) (k : A -> Main.M B) :
  (forall a, prints_only (k a)) ->
  forall s, exists outs,
    Main.trace (stopped (Main.bind m k s)) =
    Main.trace (stopped (m s)) ++ map Stdout outs.
Proof.
  intros Hk s. unfold Main.bind. destruct (m s) as [a s1|s1].
  - apply Hk.
  - exists []. simpl. rewrite app_nil_r. reflexivity.
Qed.

Lemma prints_only_bind {A B} (m : Main.M A) (k : A -> Main.M B) :
  prints_only m -> (forall a, prints_only (k a)) -> prints_only (Main.bind m k).
Proof.
  intros Hm Hk s. destruct (bind_prints m k Hk s) as [o2 H2].
  destruct (Hm s) as [o1 H1]. exists (o1 ++ o2).
  rewrite H2, H1, map_app, app_assoc. reflexivity.
Qed.

Lemma posts_prints (outs : list string) : posts (map Stdout outs) = [].
Proof. induction outs; simpl; auto. Qed.

Lemma rpc_calls_prints (outs : list string) : rpc_calls (map Stdout outs) = [].
Proof. induction outs; simpl; auto. Qed.

Ltac only_prints :=
  repeat first
    [ apply prints_only_ret
    | apply prints_only_printf
    | apply prints_only_printf_s
    | apply prints_only_bind
    | match goal with |- prints_only (if ?b then _ else _) => destruct b end
    | intro ].

(** C3. A turn that reads 2, with a curl handle at hand and a tokener that
    reads the text of the empty object as the empty object, makes one call,
    of get_status with that text, and sends one request: a POST to
    http://localhost:8080/mcp with the header Content-Type: application/json,
    whose body is what [json_object_to_json_string] prints for the envelope.
    That is the envelope of the specification in json-c's default layout, a
    space after each brace, colon and comma and the slash escaped; printed
    without spaces and without the escape, the same envelope gives the text
    of the specification. *)
Theorem status_request (W : world) (s : Main.state) (rest : list ascii) :
  scanf_d (Main.stdin s) = (Assigned 2, rest) ->
  curl_easy_init W (Main.calls s) = true ->
  json_tokener_parse W "{}" = Some (json_obj []) ->
  let s' := Main.final (Main.main_loop W 1 s) in
  posts (Main.trace s') =
    posts (Main.trace s) ++
    [ {| url := "http://localhost:8080/mcp";
         method := "POST";
         headers := ["Content-Type: application/json"%string];
         body := status_body |} ] /\
  rpc_calls (Main.trace s') =
    rpc_calls (Main.trace s) ++ [("get_status"%string, Some "{}"%string)] /\
  status_body =
    json_object_to_json_string
      (Main.build_request "get_status" (Some (json_obj []))) /\
  json_object_to_json_string_ext JSON_C_TO_STRING_PLAIN_NOSLASHESCAPE
    (Main.build_request "get_status" (Some (json_obj []))) =
  status_body_as_specified.
Proof.
  intros H Hi Hp s'. subst s'.
  rewrite final_one, main_iter_run, H.
  unfold Main.switch_choice.
  match goal with |- context [Main.bind ?m ?k ?x] =>
    destruct (bind_prints m k ltac:(only_prints) x) as [outs E] end.
  rewrite E, call_trace. simpl Main.calls. simpl Main.load. rewrite Hi.
  unfold request_for. rewrite Hp.
  simpl Main.trace.
  rewrite !posts_app, !rpc_calls_app, posts_prints, rpc_calls_prints, !app_nil_r.
  repeat split; try reflexivity.
Qed.

(* ------------------------------------------------------------------ *)
(** ** Formatting into the result array *)

Lemma bytes_app (a b : string) : bytes (a ++ b) = bytes a ++ bytes b.
Proof.
  unfold bytes. induction a as [|c a IH]; simpl; [reflexivity|].
  rewrite IH. reflexivity.
Qed.

Lemma text_bytes (t : string) : text (bytes t) = t.
Proof. apply string_of_list_ascii_of_string. Qed.

Lemma bytes_text (l : list ascii) : bytes (text l) = l.
Proof. apply list_ascii_of_string_of_list_ascii. Qed.

Lemma snprintf_length (size : nat) (t : string) :
  (0 < size)%nat -> (List.length (snprintf_bytes size t) <= size)%nat.
Proof.
  intros H. unfold snprintf_bytes. rewrite length_app. simpl.
  pose proof (firstn_le_length (size - 1) (bytes t)). lia.
Qed.

(** A text without NUL that fits is read back as it was written. *)
Lemma cstr_poke_snprintf (size : nat) (t : string) (buf : list ascii) :
  Forall (fun c => is_nul c = false) (bytes t) ->
  (List.length (bytes t) <= size - 1)%nat ->
  cstr (poke (snprintf_bytes size t) buf) = Some t.
Proof.
  intros Hn Hl. unfold cstr, poke, snprintf_bytes.
  rewrite firstn_all2 by exact Hl. rewrite <- app_assoc. simpl.
  rewrite cstr_bytes_terminated by exact Hn. simpl. rewrite text_bytes.
  reflexivity.
Qed.

Lemma snprintf_result_d_run (pre post : string) (n : Z) (s : Main.state) :
  List.length (Main.result s) = Main.MAX_RESPONSE ->
  Main.snprintf_result_d pre n post s =
  Main.Ok tt (Main.set_result
                (poke (snprintf_bytes Main.MAX_RESPONSE (pre ++ dec n ++ post))
                   (Main.result s)) s).
Proof.
  intros H. unfold Main.snprintf_result_d, Main.write.
  assert (L : (List.length (snprintf_bytes Main.MAX_RESPONSE (pre ++ dec n ++ post))
               <=? List.length (Main.result s))%nat = true).
  { apply Nat.leb_le. rewrite H. apply snprintf_length.
    unfold Main.MAX_RESPONSE. lia. }
  rewrite L. reflexivity.
Qed.

(* ------------------------------------------------------------------ *)
(** ** The debug level *)

(** The trace of a turn that reads 4 and then fails to read a level. *)
Lemma debug_turn_trace (W : world) (s : Main.state) (rest rest' : list ascii)
  (r : scan) :
  scanf_d (Main.stdin s) = (Assigned 4, rest) ->
  scanf_d rest = (r, rest') -> r = MatchFail \/ r = InputFail ->
  List.length (Main.result s) = Main.MAX_RESPONSE ->
  exists outs,
    Main.trace (stopped (Main.main_iter W s)) =
    Main.trace s ++ menu ++
    Stdout "Debug level (0-3): " ::
    RpcCall "set_debug" (Some (c_lit "{`level`:4}")) ::
    (if curl_easy_init W (Main.calls s)
     then [HttpPost (request_for W "set_debug" (c_lit "{`level`:4}"))]
     else []) ++ map Stdout outs.
Proof.
  intros H H2 Hr Hlen.
  rewrite main_iter_run, H.
  unfold Main.switch_choice.
  unfold Main.bind at 1. unfold Main.printf at 1.
  unfold Main.bind at 1. unfold Main.scanf_choice at 1.
  simpl Main.stdin. rewrite H2.
  set (s1 := Main.set_stdin rest'
               (Main.emit (Stdout "Debug level (0-3): ")
                  (Main.set_choice 4 (Main.set_stdin rest (emits menu s))))).
  assert (E : forall X : Main.state -> Main.res (option Z),
    match (match r with
           | Assigned v => Main.Ok 1 (Main.set_choice v s1)
           | MatchFail => Main.Ok 0 s1
           | InputFail => Main.Ok EOF s1
           | Unrepresentable => Main.UB s1
           end) with
    | Main.Ok _ s2 => X s2
    | Main.UB s2 => Main.UB s2
    end = X s1).
  { intros X. destruct Hr; subst r; reflexivity. }
  rewrite E. clear E.
  unfold Main.bind at 1. unfold Main.get_choice at 1.
  change (Main.choice s1) with 4.
  unfold Main.bind at 1.
  rewrite snprintf_result_d_run by exact Hlen.
  match goal with |- context [Main.bind ?m ?k ?x] =>
    destruct (bind_prints m k ltac:(only_prints) x) as [outs E] end.
  exists outs.
  rewrite E, call_trace. simpl Main.calls. simpl Main.load.
  rewrite cstr_poke_snprintf;
    [| vm_compute; repeat constructor | vm_compute; lia].
  simpl Main.trace. rewrite <- !app_assoc. reflexivity.
Qed.

(** C10. Case 4 does not look at what its [scanf] returns.  When that
    [scanf] fails, [choice] still holds the 4 that selected the case: the
    networked variant then calls set_debug with the arguments text whose
    level is 4 (and, with a curl handle, sends the request built from it),
    and the mock variant prints Debug: Level set to 4. *)
Theorem stale_choice_as_debug_level (W : world) :
  (forall (s : Main.state) (rest rest' : list ascii) (r : scan),
      scanf_d (Main.stdin s) = (Assigned 4, rest) ->
      scanf_d rest = (r, rest') -> r = MatchFail \/ r = InputFail ->
      List.length (Main.result s) = Main.MAX_RESPONSE ->
      let s' := Main.final (Main.main_loop W 1 s) in
      rpc_calls (Main.trace s') =
        rpc_calls (Main.trace s) ++
        [("set_debug"%string, Some (c_lit "{`level`:4}"))] /\
      (curl_easy_init W (Main.calls s) = true ->
       posts (Main.trace s') =
         posts (Main.trace s) ++
         [request_for W "set_debug" (c_lit "{`level`:4}")])) /\
  (forall (s : MainSimple.state) (rest rest' : list ascii) (r : scan),
      scanf_d (MainSimple.stdin s) = (Assigned 4, rest) ->
      scanf_d rest = (r, rest') -> r = MatchFail \/ r = InputFail ->
      MainSimple.main_iter s =
      MainSimple.Ok None
        (emits_simple
           [Stdout "Debug level (0-3): "; Stdout (c_lit "Debug: Level set to 4\n")]
           (MainSimple.set_choice 4
              (MainSimple.set_stdin rest' (emits_simple menu s))))).
Proof.
  split.
  - intros s rest rest' r H H2 Hr Hlen s'. subst s'.
    destruct (debug_turn_trace W s rest rest' r H H2 Hr Hlen) as [outs T].
    rewrite final_one, T.
    rewrite !posts_app, !rpc_calls_app. simpl posts. simpl rpc_calls.
    rewrite !posts_app, !rpc_calls_app, posts_prints, rpc_calls_prints, !app_nil_r.
    split.
    + destruct (curl_easy_init W (Main.calls s)); reflexivity.
    + intros Hi. rewrite Hi. reflexivity.
  - intros s rest rest' r H H2 Hr.
    rewrite main_iter_simple_run, H. destruct s as [si tr inp ch].
    run_simple. rewrite H2.
    destruct Hr; subst r; rewrite <- !app_assoc; reflexivity.
Qed.

(* ------------------------------------------------------------------ *)
(** ** No answer from the endpoint *)

Lemma call_unreachable (W : world) (tool a : string) (s : Main.state) :
  unreachable W ->
  Main.call_mcp_tool W tool (Main.Lit a) Main.Result s =
  Main.Ok (-1)
    (if curl_easy_init W (Main.calls s)
     then Main.emit (HttpPost (request_for W tool a))
            (Main.count_call (Main.emit (RpcCall tool (Some a)) s))
     else Main.count_call (Main.emit (RpcCall tool (Some a)) s)).
Proof.
  intros Hu. rewrite call_mcp_tool_run. cbv zeta. simpl Main.load.
  destruct (curl_easy_init W (Main.calls s)); [|reflexivity].
  unfold performed. rewrite Hu. reflexivity.
Qed.

(** C2. With the endpoint out of reach, a turn that reads 2 or 3 prints
    its one-line error message after the menu, while a turn that reads 5, 6
    or 7 prints nothing after the menu: these cases have no else branch.  In
    all five the loop goes on and [result] is left as it was. *)
Theorem unreachable_endpoint_turn (W : world) (s : Main.state) (c : Z)
  (rest : list ascii) :
  unreachable W ->
  scanf_d (Main.stdin s) = (Assigned c, rest) ->
  c = 2 \/ c = 3 \/ 5 <= c <= 7 ->
  exists s' evs,
    Main.main_iter W s = Main.Ok None s' /\
    Main.trace s' = Main.trace s ++ menu ++ evs /\
    printed evs =
      (if c =? 2 then c_lit "Error getting status\n"
       else if c =? 3 then c_lit "Error starting frontend\n"
       else EmptyString) /\
    Main.result s' = Main.result s.
Proof.
  intros Hu H Hc.
  assert (C : c = 2 \/ c = 3 \/ c = 5 \/ c = 6 \/ c = 7) by lia. clear Hc.
  rewrite main_iter_run, H.
  destruct C as [->|[->|[->|[->| ->]]]];
    unfold Main.switch_choice; unfold Main.bind at 1;
    rewrite call_unreachable by exact Hu;
    simpl Main.calls;
    destruct (curl_easy_init W (Main.calls s));
    eexists; eexists; (split; [reflexivity|]);
    (split; [simpl; rewrite <- !app_assoc; reflexivity|]);
    split; reflexivity.
Qed.

(* ------------------------------------------------------------------ *)
(** ** The prompt *)

Lemma read_line_plain (line rest : list ascii) :
  no_lf line ->
  forall n, (List.length line <= n)%nat ->
  read_line n (line ++ LF :: rest) =
  if (List.length line <? n)%nat then (line ++ [LF], rest)
  else (line, LF :: rest).
Proof.
  induction 1 as [|c t Hc _ IH]; intros n Hn.
  - destruct n; reflexivity.
  - destruct n as [|n]; [simpl in Hn; lia|].
    simpl. rewrite Hc. rewrite IH by (simpl in Hn; lia).
    change (S (List.length t) <? S n)%nat with (List.length t <? n)%nat.
    destruct (List.length t <? n)%nat; reflexivity.
Qed.

(** [fgets] then the removal of the line feed, on a line that fits. *)
Lemma fgets_chomp (buf line rest : list ascii) (size : nat) :
  plain line -> (List.length line <= size - 1)%nat ->
  exists b rest' t,
    fgets buf size (line ++ LF :: rest) = (b, rest') /\
    strcspn_lf b = Some (List.length line) /\
    clear_at (List.length line) b = line ++ NUL :: t.
Proof.
  intros Hp Hl.
  assert (Hlf : no_lf line).
  { eapply Forall_impl; [|exact Hp]. simpl. intros c [_ Hc]. exact Hc. }
  assert (F : fgets buf size (line ++ LF :: rest) =
              let (r, rest') := read_line (size - 1) (line ++ LF :: rest) in
              (poke (r ++ [NUL]) buf, rest')).
  { destruct line; reflexivity. }
  rewrite F, (read_line_plain line rest Hlf _ Hl).
  assert (S1 : forall c t, is_nul c || is_lf c = true ->
               strcspn_lf (line ++ c :: t) = Some (List.length line)).
  { intros c t Hc. clear F Hl Hlf.
    induction Hp as [|x l [Hx1 Hx2] _ IH]; simpl.
    - rewrite Hc. reflexivity.
    - rewrite Hx1, Hx2. simpl. rewrite IH. reflexivity. }
  assert (S2 : forall c t, clear_at (List.length line) (line ++ c :: t) =
                           line ++ NUL :: t).
  { intros c t. clear. induction line as [|x l IH]; simpl; [reflexivity|].
    rewrite IH. reflexivity. }
  destruct (List.length line <? size - 1)%nat; unfold poke.
  - exists ((line ++ [LF]) ++ [NUL] ++
            skipn (List.length ((line ++ [LF]) ++ [NUL])) buf), rest.
    eexists. rewrite <- !app_assoc. simpl.
    split; [reflexivity|]. split; [apply S1; reflexivity | apply S2].
  - exists ((line ++ [NUL]) ++ skipn (List.length (line ++ [NUL])) buf),
           (LF :: rest).
    eexists. rewrite <- !app_assoc. simpl.
    split; [reflexivity|]. split; [apply S1; reflexivity | apply S2].
Qed.

Lemma prompt_args_clean (line : list ascii) :
  plain line ->
  Forall (fun c => is_nul c = false) (bytes (prompt_args line)).
Proof.
  intros Hp. unfold prompt_args. rewrite !bytes_app, bytes_text.
  apply Forall_app. split; [vm_compute; repeat constructor|].
  apply Forall_app. split; [|vm_compute; repeat constructor].
  eapply Forall_impl; [|exact Hp]. simpl. intros c [Hc _]. exact Hc.
Qed.

Lemma prompt_args_length (line : list ascii) :
  List.length (bytes (prompt_args line)) = (13 + List.length line)%nat.
Proof.
  unfold prompt_args. rewrite !bytes_app, bytes_text, !length_app.
  change (List.length (bytes (c_lit "{`prompt`:`"))) with 11%nat.
  change (List.length (bytes (c_lit "`}"))) with 2%nat. lia.
Qed.

(** The trace of a turn that reads 1 and then a line that fits [input]. *)
Lemma prompt_turn_trace (W : world) (s : Main.state) (line rest : list ascii) :
  sized s -> plain line -> (List.length line <= 1023)%nat ->
  Main.stdin s = bytes "1" ++ LF :: line ++ LF :: rest ->
  exists outs,
    Main.trace (stopped (Main.main_iter W s)) =
    Main.trace s ++ menu ++
    Stdout "Enter prompt: " ::
    RpcCall "generate" (Some (prompt_args line)) ::
    (if curl_easy_init W (Main.calls s)
     then [HttpPost (request_for W "generate" (prompt_args line))]
     else []) ++ map Stdout outs.
Proof.
  intros [_ Hres] Hp Hl H.
  rewrite main_iter_run, H.
  change (scanf_d (bytes "1" ++ LF :: line ++ LF :: rest))
    with (Assigned 1, LF :: line ++ LF :: rest).
  destruct s as [si tr inp res cho n]. simpl in Hres. clear H.
  destruct (fgets_chomp inp line rest Main.MAX_INPUT Hp Hl)
    as [b [rest' [t [F [S1 S2]]]]].
  unfold Main.switch_choice.
  unfold Main.bind at 1. unfold Main.printf at 1.
  unfold Main.bind at 1. unfold Main.do_getchar at 1.
  unfold Main.bind at 1. unfold Main.fgets_input at 1.
  cbv [Main.emit Main.set_stdin Main.set_choice emits getchar tl
       Main.stdin Main.trace Main.input Main.result Main.choice Main.calls].
  rewrite F.
  unfold Main.bind at 1. unfold Main.chomp_input at 1.
  cbv [Main.set_input Main.stdin Main.trace Main.input Main.result
       Main.choice Main.calls].
  rewrite S1, S2.
  unfold Main.bind at 1. unfold Main.snprintf_result_s at 1.
  unfold Main.bind at 1. unfold Main.read_str at 1.
  cbv [Main.load Main.input]. unfold cstr at 1.
  rewrite cstr_bytes_terminated
    by (eapply Forall_impl; [|exact Hp]; simpl; intros c [Hc _]; exact Hc).
  cbv [option_map].
  fold (prompt_args line).
  unfold Main.write at 1. cbv [Main.result].
  assert (L : (List.length (snprintf_bytes Main.MAX_RESPONSE (prompt_args line))
               <=? List.length res)%nat = true).
  { apply Nat.leb_le. rewrite Hres. apply snprintf_length.
    unfold Main.MAX_RESPONSE. lia. }
  rewrite L. cbv beta iota.
  match goal with |- context [Main.bind ?m ?k ?x] =>
    destruct (bind_prints m k ltac:(only_prints) x) as [outs E] end.
  exists outs.
  match goal with |- ?l = ?r =>
    match l with context [stopped ?x] =>
      change (Main.trace (stopped x) = r) end end.
  rewrite E, call_trace.
  cbv [Main.set_result Main.load Main.stdin Main.trace Main.input Main.result
       Main.choice Main.calls].
  rewrite cstr_poke_snprintf;
    [| apply prompt_args_clean; exact Hp
     | rewrite prompt_args_length; unfold Main.MAX_RESPONSE; lia].
  rewrite <- !app_assoc. reflexivity.
Qed.

(** C5. A turn that reads 1 and then a line of at most 1023 bytes, none of
    them a NUL, calls generate once, and the arguments text is the line put
    as it is, nothing escaped, between the quotes of the prompt field; with
    a curl handle the request built from that text is sent.  For the line
    hello the arguments text has prompt set to hello. *)
Theorem prompt_request (W : world) (s : Main.state) (line rest : list ascii) :
  sized s -> plain line -> (List.length line <= 1023)%nat ->
  Main.stdin s = bytes "1" ++ LF :: line ++ LF :: rest ->
  let s' := Main.final (Main.main_loop W 1 s) in
  rpc_calls (Main.trace s') =
    rpc_calls (Main.trace s) ++ [("generate"%string, Some (prompt_args line))] /\
  (curl_easy_init W (Main.calls s) = true ->
   posts (Main.trace s') =
     posts (Main.trace s) ++ [request_for W "generate" (prompt_args line)]) /\
  prompt_args (bytes "hello") = c_lit "{`prompt`:`hello`}".
Proof.
  intros Hs Hp Hl H s'. subst s'.
  destruct (prompt_turn_trace W s line rest Hs Hp Hl H) as [outs T].
  rewrite final_one, T.
  rewrite !posts_app, !rpc_calls_app. simpl posts. simpl rpc_calls.
  rewrite !posts_app, !rpc_calls_app, posts_prints, rpc_calls_prints, !app_nil_r.
  split; [|split].
  - destruct (curl_easy_init W (Main.calls s)); reflexivity.
  - intros Hi. rewrite Hi. reflexivity.
  - reflexivity.
Qed.

(* ------------------------------------------------------------------ *)
(** ** Where the specification and the code part *)

(** An answer with an empty body: the call returns 0 and [result] still
    holds what it held, not the (empty) response text. *)
Lemma stale_result_on_empty_body :
  ~ call_result_as_specified w_empty "get_status" (Main.Lit "{}")
      (boot "" "" "stale").
Proof.
  unfold call_result_as_specified. simpl Main.load.
  intros [r [s' [E [H _]]]].
  destruct (H eq_refl) as [_ C].
  rewrite call_mcp_tool_run in E. vm_compute in E.
  injection E as _ <-. vm_compute in C. discriminate C.
Qed.


(** The body sent for choice 2 is not the compact text. *)
Lemma status_body_is_spaced :
  ~ status_post_as_specified w_ok (boot "2\n" "" "").
Proof.
  unfold status_post_as_specified. intros H.
  vm_compute in H. discriminate H.
Qed.

(** A line of 1024 bytes: the prompt sent is its first 1023 bytes. *)
Lemma long_prompt_is_cut :
  ~ prompt_call_as_specified w_ok (boot_prompt long_line) long_line [].
Proof.
  unfold prompt_call_as_specified. intros H.
  assert (S : sized (boot_prompt long_line)) by (split; reflexivity).
  assert (N : no_lf long_line).
  { apply Forall_forall. intros c Hc. apply repeat_spec in Hc. subst c.
    reflexivity. }
  specialize (H S N eq_refl).
  vm_compute in H. discriminate H.
Qed.

(* ------------------------------------------------------------------ *)
(** ** The theorems at concrete inputs *)

Lemma call_mcp_tool_result_witness :
  exists s',
    Main.call_mcp_tool w_ok "get_status" (Main.Lit "{}") Main.Result
      (boot "" "" "stale") = Main.Ok 0 s' /\
    cstr (Main.result s') = Some "ok"%string.
Proof.
  destruct (call_mcp_tool_result w_ok "get_status" (Main.Lit "{}")
              (boot "" "" "stale") "{}" eq_refl eq_refl)
    as [_ [_ [_ [H _]]]].
  destruct (H eq_refl eq_refl _ eq_refl) as [s' [E [_ C]]].
  exists s'. split; [exact E | exact C].
Defined.

Lemma unreachable_endpoint_turn_witness :
  exists s' evs,
    Main.main_iter w_down (boot "5\n" "" "") = Main.Ok None s' /\
    Main.trace s' = menu ++ evs /\
    printed evs = EmptyString /\
    Main.result s' = Main.result (boot "5\n" "" "").
Proof.
  apply (unreachable_endpoint_turn w_down (boot "5\n" "" "") 5 [LF]).
  - intros n rq. reflexivity.
  - reflexivity.
  - right. right. lia.
Defined.

Lemma status_request_witness :
  posts (Main.trace (Main.final (Main.main_loop w_ok 1 (boot "2\n" "" "")))) =
  [ {| url := "http://localhost:8080/mcp";
       method := "POST";
       headers := ["Content-Type: application/json"%string];
       body := status_body |} ].
Proof.
  apply (status_request w_ok (boot "2\n" "" "") [LF]); reflexivity.
Defined.


Lemma prompt_request_witness :
  rpc_calls (Main.trace (Main.final
     (Main.main_loop w_ok 1 (boot_prompt (bytes "hello"))))) =
  [("generate"%string, Some (c_lit "{`prompt`:`hello`}"))].
Proof.
  apply (prompt_request w_ok (boot_prompt (bytes "hello")) (bytes "hello") []).
  - split; reflexivity.
  - repeat constructor.
  - simpl. lia.
  - reflexivity.
Defined.

Lemma exit_only_by_choice_8_witness :
  Main.main_loop w_ok 3 (boot "8\n2\n" "" "") =
    Main.Exited 0
      (Main.emit goodbye
         (Main.set_choice 8
            (Main.set_stdin (bytes (c_lit "\n2\n")) (emits menu (boot "8\n2\n" "" ""))))) /\
  MainSimple.main_loop 3 (boot_simple "8\n2\n") =
    MainSimple.Exited 0
      (MainSimple.emit goodbye
         (MainSimple.set_choice 8
            (MainSimple.set_stdin (bytes (c_lit "\n2\n"))
               (emits_simple menu (boot_simple "8\n2\n"))))) /\
  (exists s', Main.main_loop w_ok 5 (boot "" "" "") = Main.Running s').
Proof.
  destruct (exit_only_by_choice_8 w_ok) as [[M1 [_ M3]] [S1 _]].
  split; [|split].
  - apply (M1 (boot "8\n2\n" "" "") (bytes (c_lit "\n2\n")) eq_refl 2%nat).
  - apply (S1 (boot_simple "8\n2\n") (bytes (c_lit "\n2\n")) eq_refl 2%nat).
  - apply (M3 5%nat (boot "" "" "") eq_refl).
Defined.

Lemma mock_config_block_witness :
  MainSimple.main_iter (boot_simple "5\n") =
  MainSimple.Ok None
    (emits_simple
       [ Stdout (c_lit "Config: {\n");
         Stdout (c_lit "  `model`: `gpt-4`,\n");
         Stdout (c_lit "  `temperature`: 0.7,\n");
         Stdout (c_lit "  `max_tokens`: 1000\n");
         Stdout (c_lit "}\n") ]
       (MainSimple.set_choice 5
          (MainSimple.set_stdin [LF] (emits_simple menu (boot_simple "5\n"))))).
Proof.
  apply (mock_config_block (boot_simple "5\n") [LF]). reflexivity.
Defined.

Lemma args_read_before_result_written_witness :
  Main.call_mcp_tool w_ok "set_debug" Main.Result Main.Result
    (boot "" "" "{}") =
  Main.call_mcp_tool w_ok "set_debug" (Main.Lit "{}") Main.Result
    (boot "" "" "{}").
Proof.
  apply (args_read_before_result_written w_ok "set_debug" (boot "" "" "{}")).
  reflexivity.
Defined.

Lemma stale_choice_as_debug_level_witness :
  rpc_calls (Main.trace (Main.final (Main.main_loop w_ok 1 (boot "4\nx\n" "" "")))) =
    [("set_debug"%string, Some (c_lit "{`level`:4}"))] /\
  MainSimple.main_iter (boot_simple "4\nx\n") =
    MainSimple.Ok None
      (emits_simple
         [Stdout "Debug level (0-3): "; Stdout (c_lit "Debug: Level set to 4\n")]
         (MainSimple.set_choice 4
            (MainSimple.set_stdin (bytes (c_lit "x\n"))
               (emits_simple menu (boot_simple "4\nx\n"))))).
Proof.
  destruct (stale_choice_as_debug_level w_ok) as [HM HS].
  split.
  - apply (HM (boot "4\nx\n" "" "") (bytes (c_lit "\nx\n")) (bytes (c_lit "x\n"))
              MatchFail eq_refl eq_refl (or_introl eq_refl) eq_refl).
  - apply (HS (boot_simple "4\nx\n") (bytes (c_lit "\nx\n")) (bytes (c_lit "x\n"))
              MatchFail eq_refl eq_refl (or_introl eq_refl)).
Defined.

(* ================================================================== *)
(** * Further properties *)

(** ** The write callback *)

(** X1. [WriteCallback] keeps the response a terminated copy of what was
    received: called with a block whose length is [size * nmemb] on a
    response that holds [received], it returns that length and the response
    then holds [received] followed by the block; when its [realloc] fails it
    returns 0 and leaves the response as it was. *)
Theorem WriteCallback_accumulates (contents received : list ascii)
  (size_ nmemb : nat) (r : Main.Response) :
  accumulated r received ->
  List.length contents = (size_ * nmemb)%nat ->
  (let (n, r') := Main.WriteCallback contents size_ nmemb true r in
   n = List.length contents /\ accumulated r' (received ++ contents)) /\
  Main.WriteCallback contents size_ nmemb false r = (O, r).
Proof.
  intros [Hs Hd] Hl. split; [|reflexivity].
  unfold Main.WriteCallback. simpl negb. cbv iota.
  split; [symmetry; exact Hl|].
  unfold accumulated. simpl Main.size. simpl Main.data.
  rewrite <- Hl, firstn_all, Hs, length_app. split; [reflexivity|].
  destruct (Main.data r) as [d|].
  - subst d. rewrite firstn_app, firstn_all, Nat.sub_diag. simpl.
    rewrite app_nil_r, <- app_assoc. reflexivity.
  - subst received. reflexivity.
Qed.

Lemma WriteCallback_accumulates_witness :
  let (n, r') := Main.WriteCallback (bytes "lo") 1 2 true
                   {| Main.data := Some (bytes "hel" ++ [NUL]); Main.size := 3 |} in
  n = 2%nat /\ accumulated r' (bytes "hello").
Proof.
  exact (proj1 (WriteCallback_accumulates (bytes "lo") (bytes "hel") 1 2
                  {| Main.data := Some (bytes "hel" ++ [NUL]); Main.size := 3 |}
                  (conj eq_refl eq_refl) eq_refl)).
Defined.

Lemma deliver_alloc_failure (pre post : list (list ascii * bool))
  (c : list ascii) :
  Forall (fun b => snd b = true) pre -> c <> [] ->
  forall r, fst (Main.deliver (pre ++ (c, false) :: post) r) = false.
Proof.
  intros Hpre Hc. induction Hpre as [|[x ok] t Hok _ IH]; intros r.
  - simpl. destruct c as [|c0 c']; [congruence | reflexivity].
  - simpl in Hok. subst ok. simpl.
    rewrite Nat.add_0_r, Nat.eqb_refl. apply IH.
Qed.

(** X2. An allocation that fails in the write callback fails the call: when
    the first block whose [realloc] fails is not empty, [curl_easy_perform]
    gives CURLE_WRITE_ERROR whatever the server did, [call_mcp_tool] returns
    -1 and [result] is left as it was.  On an empty block the failure goes
    unnoticed: the callback returns 0, which is the length of the block, and
    the transfer goes on as if the block had not come. *)
Theorem allocation_failure_fails_the_call (W : world) (tool : string)
  (args : Main.cptr) (s : Main.state) (a : string)
  (pre post : list (list ascii * bool)) (c : list ascii) :
  Main.load s args = Some a ->
  curl_easy_init W (Main.calls s) = true ->
  blocks (curl_transfer W (Main.calls s) (request_for W tool a)) =
    pre ++ (c, false) :: post ->
  Forall (fun b => snd b = true) pre -> c <> [] ->
  fst (performed W tool a s) = CURLE_WRITE_ERROR /\
  (exists s', Main.call_mcp_tool W tool args Main.Result s = Main.Ok (-1) s' /\
              Main.result s' = Main.result s) /\
  (forall r, Main.deliver (([], false) :: post) r = Main.deliver post r).
Proof.
  intros Ha Hi Hb Hpre Hc.
  assert (P : fst (performed W tool a s) = CURLE_WRITE_ERROR).
  { unfold performed, Main.curl_easy_perform. rewrite Hb.
    pose proof (deliver_alloc_failure pre post c Hpre Hc fresh_response) as D.
    destruct (Main.deliver _ _) as [ok r]. simpl in D. subst ok. reflexivity. }
  split; [exact P|]. split; [|intros r; reflexivity].
  rewrite call_mcp_tool_run. cbv zeta. rewrite Hi, Ha. simpl negb. cbv iota.
  destruct (performed W tool a s) as [r rsp]. simpl in P. subst r.
  eexists. split; reflexivity.
Qed.

Lemma allocation_failure_fails_the_call_witness :
  exists s',
    Main.call_mcp_tool (answering [(bytes "o", true); (bytes "k", false)])
      "get_status" (Main.Lit "{}") Main.Result (boot "" "" "stale") =
    Main.Ok (-1) s' /\
    Main.result s' = Main.result (boot "" "" "stale").
Proof.
  apply (allocation_failure_fails_the_call
           (answering [(bytes "o", true); (bytes "k", false)])
           "get_status" (Main.Lit "{}") (boot "" "" "stale") "{}"
           [(bytes "o", true)] [] (bytes "k")).
  - reflexivity.
  - reflexivity.
  - reflexivity.
  - repeat constructor.
  - discriminate.
Defined.

(* ------------------------------------------------------------------ *)
(** ** One call, one attempt *)

Lemma append_nil_r (x : string) : (x ++ "")%string = x.
Proof. induction x as [|c x IH]; simpl; [reflexivity | rewrite IH; reflexivity]. Qed.

Lemma append_assoc (x y z : string) :
  ((x ++ y) ++ z)%string = (x ++ y ++ z)%string.
Proof. induction x as [|c x IH]; simpl; [reflexivity | rewrite IH; reflexivity]. Qed.

Lemma printed_cons (e : event) (l : list event) :
  printed (e :: l) = (printed_of e ++ printed l)%string.
Proof.
  unfold printed. destruct l as [|e' l]; simpl.
  - symmetry. apply append_nil_r.
  - reflexivity.
Qed.

Lemma printed_app (l m : list event) :
  printed (l ++ m) = (printed l ++ printed m)%string.
Proof.
  induction l as [|e l IH]; [reflexivity|].
  rewrite <- app_comm_cons, !printed_cons, IH, append_assoc. reflexivity.
Qed.

(** X3. Whatever happens in it, one call of [call_mcp_tool] makes one attempt
    and no more: it sends the request once when it has a curl handle and the
    arguments are a string, and nothing otherwise.  It prints nothing, reads
    no input, and leaves [input] and [choice] alone. *)
Theorem call_mcp_tool_single_attempt (W : world) (tool : string)
  (args : Main.cptr) (s : Main.state) :
  let s' := stopped (Main.call_mcp_tool W tool args Main.Result s) in
  posts (Main.trace s') =
    posts (Main.trace s) ++
    (if curl_easy_init W (Main.calls s) then
       match Main.load s args with
       | Some a => [request_for W tool a]
       | None => []
       end
     else []) /\
  rpc_calls (Main.trace s') =
    rpc_calls (Main.trace s) ++ [(tool, Main.load s args)] /\
  printed (Main.trace s') = printed (Main.trace s) /\
  Main.stdin s' = Main.stdin s /\
  Main.input s' = Main.input s /\
  Main.choice s' = Main.choice s /\
  Main.calls s' = S (Main.calls s).
Proof.
  intros s'. subst s'.
  split; [|split; [|split]].
  - rewrite call_trace, posts_app.
    destruct (curl_easy_init W (Main.calls s)); [|reflexivity].
    destruct (Main.load s args); reflexivity.
  - rewrite call_trace, rpc_calls_app.
    destruct (curl_easy_init W (Main.calls s)); [|reflexivity].
    destruct (Main.load s args); reflexivity.
  - rewrite call_trace, printed_app.
    destruct (curl_easy_init W (Main.calls s));
      [destruct (Main.load s args)|]; apply append_nil_r.
  - rewrite call_mcp_tool_run. cbv zeta.
    destruct (curl_easy_init W (Main.calls s)); [|repeat split].
    simpl negb. cbv iota.
    destruct (Main.load s args) as [a|]; [|repeat split].
    destruct (performed W tool a s) as [r rsp].
    destruct (r =? CURLE_OK); [|repeat split].
    destruct (Main.data rsp) as [d|]; [|repeat split].
    unfold Main.write.
    destruct (_ <=? _)%nat; repeat split.
Qed.

(* ------------------------------------------------------------------ *)
(** ** The envelope *)

Lemma body_shape (tool : string) (v : option json_object) :
  json_object_to_json_string (Main.build_request tool v) =
  envelope_text tool (json_text v).
Proof.
  unfold envelope_text, json_text, json_object_to_json_string, Main.build_request.
  cbv [json_object_object_add members_add json_object_new_object
       json_object_new_string json_object_new_int String.eqb Ascii.eqb Bool.eqb].
  destruct v as [x|]; simpl; rewrite ?append_assoc, ?append_nil_r; simpl;
    reflexivity.
Qed.

(** X4. The request of a call is a POST to http://localhost:8080/mcp with the
    one header Content-Type: application/json, and its body is always the
    same envelope: the tool name printed as a JSON string, escaped, and the
    arguments as json-c prints what the tokener made of the arguments text.
    The result of the tokener is not checked: an arguments text that does not
    parse is sent all the same, as null. *)
Theorem request_envelope (W : world) (tool : string) :
  (forall a,
      request_for W tool a =
      {| url := "http://localhost:8080/mcp";
         method := "POST";
         headers := ["Content-Type: application/json"%string];
         body := envelope_text tool (json_text (json_tokener_parse W a)) |}) /\
  (forall (args : Main.cptr) (s : Main.state) (a : string),
      Main.load s args = Some a ->
      curl_easy_init W (Main.calls s) = true ->
      json_tokener_parse W a = None ->
      posts (Main.trace (stopped (Main.call_mcp_tool W tool args Main.Result s))) =
      posts (Main.trace s) ++ [Main.post_of (envelope_text tool "null")]).
Proof.
  assert (R : forall a, request_for W tool a =
      Main.post_of (envelope_text tool (json_text (json_tokener_parse W a)))).
  { intros a. unfold request_for. rewrite body_shape. reflexivity. }
  split; [exact R|].
  intros args s a Ha Hi Hp.
  rewrite call_trace, posts_app, Hi, Ha, R, Hp. reflexivity.
Qed.

Lemma request_envelope_witness :
  posts (Main.trace (stopped
    (Main.call_mcp_tool w_ok "generate" Main.Result Main.Result
       (boot "" "" "{oops")))) =
  [Main.post_of (envelope_text "generate" "null")].
Proof.
  apply (proj2 (request_envelope w_ok "generate") Main.Result
           (boot "" "" "{oops") "{oops"%string); reflexivity.
Defined.

(* ------------------------------------------------------------------ *)
(** ** The cases without further input *)

Lemma performed_text (W : world) (tool a : string) (s : Main.state) :
  let t := curl_transfer W (Main.calls s) (request_for W tool a) in
  stored t ->
  performed W tool a s =
  (code t,
   match blocks t with
   | [] => fresh_response
   | _ :: _ => {| Main.data := Some (response_text t ++ [NUL]);
                  Main.size := List.length (response_text t) |}
   end).
Proof.
  intros t H. unfold performed, Main.curl_easy_perform. fold t.
  unfold stored in H. unfold response_text.
  destruct (blocks t) as [|b bl]; [reflexivity|].
  pose proof (deliver_text (b :: bl) [] H ltac:(discriminate) None eq_refl) as D.
  unfold fresh_response. change (List.length (@nil ascii)) with O in D.
  rewrite D. reflexivity.
Qed.

(** A call whose transfer succeeds and brings something. *)
Lemma call_success_run (W : world) (tool : string) (args : Main.cptr)
  (s : Main.state) (a : string) (rsp : Main.Response) (d : list ascii) :
  List.length (Main.result s) = Main.MAX_RESPONSE ->
  Main.load s args = Some a ->
  curl_easy_init W (Main.calls s) = true ->
  performed W tool a s = (CURLE_OK, rsp) -> Main.data rsp = Some d ->
  Main.call_mcp_tool W tool args Main.Result s =
  Main.Ok 0
    (Main.set_result (strncpy_bytes d (Main.MAX_RESPONSE - 1) ++ [NUL])
       (Main.emit (HttpPost (request_for W tool a))
          (Main.count_call (Main.emit (RpcCall tool (Some a)) s)))).
Proof.
  intros Hl Ha Hi Hp Hd. rewrite call_mcp_tool_run. cbv zeta.
  rewrite Hi, Ha, Hp, Hd. simpl negb. cbv iota. rewrite Z.eqb_refl.
  rewrite write_result_full; [reflexivity|].
  rewrite length_app, strncpy_length. simpl Main.result. rewrite Hl. reflexivity.
Qed.

Lemma plain_action_switch (W : world) (c : Z) (tool label : string) :
  In (c, (tool, label)) plain_actions ->
  exists k,
    (forall r, prints_only (k r)) /\
    (forall r s, r = 0 -> k r s =
       Main.bind (Main.printf_s label Main.Result (c_lit "\n"))
                 (fun _ => Main.ret None) s) /\
    Main.switch_choice W c =
    Main.bind (Main.call_mcp_tool W tool (Main.Lit "{}") Main.Result) k.
Proof.
  intros H. simpl in H.
  repeat (destruct H as [H|H]; [injection H as <- <- <-|]); [| | | | |contradiction];
    eexists; (split; [|split; [|reflexivity]]);
    [ intros r; only_prints | intros r s ->; reflexivity
    | intros r; only_prints | intros r s ->; reflexivity
    | intros r; only_prints | intros r s ->; reflexivity
    | intros r; only_prints | intros r s ->; reflexivity
    | intros r; only_prints | intros r s ->; reflexivity ].
Qed.

(** X5. The cases 2, 3, 5, 6 and 7 each make exactly one call, of the tool
    of the case (get_status, start_frontend, get_agent_config, db_status,
    get_settings) with the text of the empty object as arguments, and send
    its request when a curl handle is obtained, whatever the server then
    answers. *)
Theorem plain_action_call (W : world) (s : Main.state) (c : Z)
  (rest : list ascii) (tool label : string) :
  scanf_d (Main.stdin s) = (Assigned c, rest) ->
  In (c, (tool, label)) plain_actions ->
  let s' := Main.final (Main.main_loop W 1 s) in
  rpc_calls (Main.trace s') =
    rpc_calls (Main.trace s) ++ [(tool, Some "{}"%string)] /\
  posts (Main.trace s') =
    posts (Main.trace s) ++
    (if curl_easy_init W (Main.calls s) then [request_for W tool "{}"] else []).
Proof.
  intros H Hin s'. subst s'.
  destruct (plain_action_switch W c tool label Hin) as [k [Hk [_ E]]].
  rewrite final_one, main_iter_run, H, E.
  destruct (bind_prints (Main.call_mcp_tool W tool (Main.Lit "{}") Main.Result) k Hk
              (Main.set_choice c (Main.set_stdin rest (emits menu s)))) as [outs T].
  rewrite T, call_trace. simpl Main.calls. simpl Main.load. simpl Main.trace.
  rewrite !posts_app, !rpc_calls_app, posts_prints, rpc_calls_prints, !app_nil_r.
  split.
  - destruct (curl_easy_init W (Main.calls s)); reflexivity.
  - destruct (curl_easy_init W (Main.calls s)); reflexivity.
Qed.

Lemma plain_action_call_witness :
  rpc_calls (Main.trace (Main.final (Main.main_loop w_down 1 (boot "6\n" "" "")))) =
  [("db_status"%string, Some "{}"%string)].
Proof.
  apply (plain_action_call w_down (boot "6\n" "" "") 6 [LF] "db_status" "Database: ").
  - reflexivity.
  - simpl. tauto.
Defined.

(** X6. When the call of case 2, 3, 5, 6 or 7 succeeds and brings a body,
    the turn prints one line after the menu: the label of the case and the
    body as [result] holds it, that is up to its first NUL and cut to 4095
    bytes.  The loop goes on, with that text left in [result]. *)
Theorem plain_action_shows_answer (W : world) (s : Main.state) (c : Z)
  (rest : list ascii) (tool label : string) :
  scanf_d (Main.stdin s) = (Assigned c, rest) ->
  In (c, (tool, label)) plain_actions ->
  List.length (Main.result s) = Main.MAX_RESPONSE ->
  curl_easy_init W (Main.calls s) = true ->
  let t := curl_transfer W (Main.calls s) (request_for W tool "{}") in
  code t = CURLE_OK -> stored t -> blocks t <> [] ->
  exists s',
    Main.main_iter W s = Main.Ok None s' /\
    Main.trace s' =
      Main.trace s ++ menu ++
      [ RpcCall tool (Some "{}"%string);
        HttpPost (request_for W tool "{}");
        Stdout (label ++ shown (response_text t) ++ c_lit "\n") ] /\
    cstr (Main.result s') = Some (shown (response_text t)).
Proof.
  intros H Hin Hl Hi t Hc Hs Hb.
  destruct (plain_action_switch W c tool label Hin) as [k [_ [Hk E]]].
  rewrite main_iter_run, H, E. unfold Main.bind at 1.
  pose proof (performed_text W tool "{}" s Hs) as P. fold t in P.
  rewrite Hc in P. destruct (blocks t) as [|b bl] eqn:Eb; [congruence|].
  erewrite call_success_run; [| exact Hl | reflexivity | exact Hi | exact P | reflexivity].
  rewrite Hk by reflexivity.
  unfold Main.bind at 1. unfold Main.printf_s, Main.bind at 1.
  unfold Main.read_str. simpl Main.load.
  rewrite <- (app_nil_r (_ ++ [NUL])), cstr_strncpy, until_nul_terminated.
  fold (shown (response_text t)).
  eexists. split; [reflexivity|]. split.
  - simpl. rewrite <- !app_assoc. reflexivity.
  - simpl. rewrite <- (app_nil_r (_ ++ [NUL])), cstr_strncpy, until_nul_terminated.
    reflexivity.
Qed.

Lemma plain_action_shows_answer_witness :
  exists s',
    Main.main_iter w_ok (boot "7\n" "" "") = Main.Ok None s' /\
    Main.trace s' =
      menu ++
      [ RpcCall "get_settings" (Some "{}"%string);
        HttpPost (request_for w_ok "get_settings" "{}");
        Stdout (c_lit "Settings: ok\n") ] /\
    cstr (Main.result s') = Some "ok"%string.
Proof.
  apply (plain_action_shows_answer w_ok (boot "7\n" "" "") 7 [LF]
           "get_settings" "Settings: ").
  - reflexivity.
  - simpl. tauto.
  - reflexivity.
  - reflexivity.
  - reflexivity.
  - repeat constructor.
  - discriminate.
Defined.

(* ------------------------------------------------------------------ *)
(** ** Reading the prompt *)

Lemma read_line_cut (line rest : list ascii) :
  no_lf line ->
  forall n,
  read_line n (line ++ LF :: rest) =
  if (List.length line <? n)%nat then (line ++ [LF], rest)
  else (firstn n line, skipn n line ++ LF :: rest).
Proof.
  induction 1 as [|c t Hc _ IH]; intros n.
  - destruct n; reflexivity.
  - destruct n as [|n]; [reflexivity|].
    simpl. rewrite Hc, IH.
    change (S (List.length t) <? S n)%nat with (List.length t <? n)%nat.
    destruct (List.length t <? n)%nat; reflexivity.
Qed.

Lemma strcspn_lf_plain (line : list ascii) (c : ascii) (t : list ascii) :
  plain line -> is_nul c || is_lf c = true ->
  strcspn_lf (line ++ c :: t) = Some (List.length line).
Proof.
  intros Hp Hc. induction Hp as [|x l [Hx1 Hx2] _ IH]; simpl.
  - rewrite Hc. reflexivity.
  - rewrite Hx1, Hx2. simpl. rewrite IH. reflexivity.
Qed.

Lemma clear_at_end (line : list ascii) (c : ascii) (t : list ascii) :
  clear_at (List.length line) (line ++ c :: t) = line ++ NUL :: t.
Proof.
  induction line as [|x l IH]; simpl; [reflexivity | rewrite IH; reflexivity].
Qed.

Lemma plain_firstn (n : nat) (line : list ascii) :
  plain line -> plain (firstn n line).
Proof. apply Forall_firstn. Qed.

Lemma plain_no_nul (line : list ascii) :
  plain line -> Forall (fun c => is_nul c = false) line.
Proof.
  intros H. eapply Forall_impl; [|exact H]. simpl. intros c [Hc _]. exact Hc.
Qed.

Lemma plain_no_lf (line : list ascii) : plain line -> no_lf line.
Proof.
  intros H. eapply Forall_impl; [|exact H]. simpl. intros c [_ Hc]. exact Hc.
Qed.

(** [fgets] into a 1024-byte array, then the removal of the line feed, on
    a line of any length. *)
Lemma fgets_chomp_cut (buf line rest : list ascii) :
  plain line ->
  exists b t,
    fgets buf Main.MAX_INPUT (line ++ LF :: rest) = (b, left_unread line rest) /\
    strcspn_lf b = Some (List.length (kept line)) /\
    clear_at (List.length (kept line)) b = kept line ++ NUL :: t /\
    (List.length buf = Main.MAX_INPUT -> List.length b = Main.MAX_INPUT).
Proof.
  intros Hp.
  assert (F : fgets buf Main.MAX_INPUT (line ++ LF :: rest) =
              let (r, rest') := read_line (Main.MAX_INPUT - 1) (line ++ LF :: rest) in
              (poke (r ++ [NUL]) buf, rest')).
  { destruct line; reflexivity. }
  rewrite F, (read_line_cut line rest (plain_no_lf line Hp)).
  unfold left_unread, kept.
  assert (En : (Main.MAX_INPUT - 1 = 1023)%nat) by reflexivity.
  assert (Em : Main.MAX_INPUT = 1024%nat) by reflexivity.
  revert En. generalize (Main.MAX_INPUT - 1)%nat. intros n En.
  revert Em. generalize Main.MAX_INPUT. intros m Em.
  destruct (List.length line <? n)%nat eqn:E; unfold poke.
  - apply Nat.ltb_lt in E.
    rewrite (firstn_all2 line) by lia.
    eexists. eexists. rewrite <- !app_assoc. simpl.
    split; [reflexivity|].
    split; [apply strcspn_lf_plain; [exact Hp | reflexivity]|].
    split; [apply clear_at_end|].
    intros Hb. rewrite length_app. simpl. rewrite length_skipn, length_app.
    simpl. rewrite Hb. lia.
  - apply Nat.ltb_ge in E.
    eexists. eexists. rewrite <- !app_assoc. simpl.
    split; [reflexivity|].
    split; [apply strcspn_lf_plain; [apply plain_firstn; exact Hp | reflexivity]|].
    split; [apply clear_at_end|].
    intros Hb. rewrite length_app. simpl. rewrite length_skipn, length_app.
    simpl. rewrite Hb, length_firstn. lia.
Qed.

Lemma kept_length (line : list ascii) : (List.length (kept line) <= 1023)%nat.
Proof. unfold kept. rewrite length_firstn. unfold Main.MAX_INPUT. lia. Qed.

(** Case 1 up to its call: the state in which [call_mcp_tool] is entered. *)
Lemma prompt_turn_run (W : world) (s : Main.state) (line rest : list ascii) :
  sized s -> plain line ->
  Main.stdin s = bytes "1" ++ LF :: line ++ LF :: rest ->
  exists s3,
    Main.main_iter W s =
      Main.bind (Main.call_mcp_tool W "generate" Main.Result Main.Result)
        (after_generate W) s3 /\
    Main.trace s3 = Main.trace s ++ menu ++ [Stdout "Enter prompt: "] /\
    Main.stdin s3 = left_unread line rest /\
    Main.load s3 Main.Result = Some (prompt_args (kept line)) /\
    cstr (Main.input s3) = Some (text (kept line)) /\
    List.length (Main.result s3) = Main.MAX_RESPONSE /\
    List.length (Main.input s3) = Main.MAX_INPUT /\
    Main.calls s3 = Main.calls s.
Proof.
  intros [Hin Hres] Hp H.
  rewrite main_iter_run, H.
  change (scanf_d (bytes "1" ++ LF :: line ++ LF :: rest))
    with (Assigned 1, LF :: line ++ LF :: rest).
  destruct s as [si tr inp res cho n]. simpl in Hres, Hin. clear H.
  destruct (fgets_chomp_cut inp line rest Hp) as [b [t [F [S1 [S2 Hb]]]]].
  pose proof (plain_firstn (Main.MAX_INPUT - 1) line Hp) as Hk. fold (kept line) in Hk.
  unfold Main.switch_choice.
  unfold Main.bind at 1. unfold Main.printf at 1.
  unfold Main.bind at 1. unfold Main.do_getchar at 1.
  unfold Main.bind at 1. unfold Main.fgets_input at 1.
  cbv [Main.emit Main.set_stdin Main.set_choice emits getchar tl
       Main.stdin Main.trace Main.input Main.result Main.choice Main.calls].
  rewrite F.
  unfold Main.bind at 1. unfold Main.chomp_input at 1.
  cbv [Main.set_input Main.stdin Main.trace Main.input Main.result
       Main.choice Main.calls].
  rewrite S1, S2.
  unfold Main.bind at 1. unfold Main.snprintf_result_s at 1.
  unfold Main.bind at 1. unfold Main.read_str at 1.
  cbv [Main.load Main.input]. unfold cstr at 1.
  rewrite cstr_bytes_terminated by (apply plain_no_nul; exact Hk).
  cbv [option_map].
  fold (prompt_args (kept line)).
  unfold Main.write at 1. cbv [Main.result].
  assert (L : (List.length (snprintf_bytes Main.MAX_RESPONSE (prompt_args (kept line)))
               <=? List.length res)%nat = true).
  { apply Nat.leb_le. rewrite Hres. apply snprintf_length.
    unfold Main.MAX_RESPONSE. lia. }
  rewrite L. cbv beta iota.
  eexists. split; [reflexivity|].
  cbv [Main.set_result Main.load Main.stdin Main.trace Main.input Main.result
       Main.choice Main.calls].
  split; [rewrite <- !app_assoc; reflexivity|].
  split; [reflexivity|].
  split.
  { apply cstr_poke_snprintf; [apply prompt_args_clean; exact Hk|].
    rewrite prompt_args_length. pose proof (kept_length line).
    unfold Main.MAX_RESPONSE. lia. }
  split.
  { unfold cstr. rewrite cstr_bytes_terminated by (apply plain_no_nul; exact Hk).
    reflexivity. }
  split.
  { unfold poke. rewrite length_app, length_skipn.
    assert (List.length (snprintf_bytes Main.MAX_RESPONSE (prompt_args (kept line)))
            <= List.length res)%nat by (apply Nat.leb_le; exact L). lia. }
  split; [|reflexivity].
  rewrite <- S2. clear - Hb Hin.
  specialize (Hb Hin). rewrite <- Hb.
  generalize (List.length (kept line)). clear. revert b.
  intros b n. revert b. induction n as [|n IH]; intros [|x b]; simpl; auto.
Qed.

Lemma call_keeps_stdin (W : world) (tool : string) (args dst : Main.cptr) :
  keeps Main.stdin (Main.call_mcp_tool W tool args dst).
Proof.
  intros s. rewrite call_mcp_tool_run. cbv zeta.
  destruct (curl_easy_init W (Main.calls s)); [|reflexivity].
  simpl negb. cbv iota.
  destruct (Main.load s args) as [a|]; [|reflexivity].
  destruct (performed W tool a s) as [r rsp].
  destruct (r =? CURLE_OK); [|reflexivity].
  destruct (Main.data rsp) as [d|]; [|reflexivity].
  unfold Main.write. destruct dst; [reflexivity| |];
    destruct (_ <=? _)%nat; reflexivity.
Qed.

Lemma keeps_bind {A B X} (f : Main.state -> X) (m : Main.M A)
  (k : A -> Main.M B) :
  keeps f m -> (forall a, keeps f (k a)) -> keeps f (Main.bind m k).
Proof.
  intros Hm Hk s. unfold Main.bind. specialize (Hm s).
  destruct (m s) as [a s1|s1]; simpl in Hm |- *; [|exact Hm].
  rewrite Hk. exact Hm.
Qed.

Lemma after_generate_keeps_stdin (W : world) (r : Z) :
  keeps Main.stdin (after_generate W r).
Proof.
  unfold after_generate. apply keeps_bind; [|intros a s; reflexivity].
  destruct (r =? 0); intros s; [|reflexivity].
  unfold Main.printf_s, Main.bind, Main.read_str.
  destruct (Main.load s Main.Result); reflexivity.
Qed.

Lemma after_generate_prints (W : world) (r : Z) : prints_only (after_generate W r).
Proof. unfold after_generate. only_prints. Qed.

Lemma call_empty_run (W : world) (tool : string) (args : Main.cptr)
  (s : Main.state) (a : string) (rsp : Main.Response) :
  Main.load s args = Some a ->
  curl_easy_init W (Main.calls s) = true ->
  performed W tool a s = (CURLE_OK, rsp) -> Main.data rsp = None ->
  Main.call_mcp_tool W tool args Main.Result s =
  Main.Ok 0
    (Main.emit (HttpPost (request_for W tool a))
       (Main.count_call (Main.emit (RpcCall tool (Some a)) s))).
Proof.
  intros Ha Hi Hp Hd. rewrite call_mcp_tool_run. cbv zeta.
  rewrite Hi, Ha, Hp, Hd. reflexivity.
Qed.

(** X7. The prompt line is cut by the array it is read into: whatever its
    length, case 1 calls generate with the first 1023 bytes of the line
    between the quotes, and what the line has beyond them stays unread, with
    its line feed, for the next [scanf] of the menu. *)
Theorem prompt_cut_to_input_array (W : world) (s : Main.state)
  (line rest : list ascii) :
  sized s -> plain line ->
  Main.stdin s = bytes "1" ++ LF :: line ++ LF :: rest ->
  let s' := Main.final (Main.main_loop W 1 s) in
  rpc_calls (Main.trace s') =
    rpc_calls (Main.trace s) ++
    [("generate"%string, Some (prompt_args (firstn 1023 line)))] /\
  Main.stdin s' =
    (if (List.length line <? 1023)%nat then rest
     else skipn 1023 line ++ LF :: rest).
Proof.
  intros Hs Hp H s'. subst s'.
  destruct (prompt_turn_run W s line rest Hs Hp H)
    as [s3 [E [T [I [L _]]]]].
  rewrite final_one, E. split.
  - destruct (bind_prints (Main.call_mcp_tool W "generate" Main.Result Main.Result)
                (after_generate W) (after_generate_prints W) s3) as [outs B].
    rewrite B, call_trace, T, L.
    rewrite !rpc_calls_app. simpl rpc_calls.
    destruct (curl_easy_init W (Main.calls s3));
      rewrite ?rpc_calls_app, rpc_calls_prints; simpl; rewrite ?app_nil_r;
      reflexivity.
  - rewrite (keeps_bind Main.stdin
               (Main.call_mcp_tool W "generate" Main.Result Main.Result)
               (after_generate W) (call_keeps_stdin W _ _ _)
               (after_generate_keeps_stdin W)).
    exact I.
Qed.

Lemma prompt_cut_to_input_array_witness :
  rpc_calls (Main.trace (Main.final (Main.main_loop w_ok 1 (boot_prompt long_line)))) =
    [("generate"%string, Some (prompt_args (firstn 1023 long_line)))] /\
  Main.stdin (Main.final (Main.main_loop w_ok 1 (boot_prompt long_line))) =
    [ "a"%char; LF ].
Proof.
  apply (prompt_cut_to_input_array w_ok (boot_prompt long_line) long_line []).
  - split; reflexivity.
  - apply Forall_forall. intros c Hc. apply repeat_spec in Hc. subst c.
    split; reflexivity.
  - reflexivity.
Defined.

(** X8. A successful transfer that brings no body leaves [result] as the
    call found it, and for case 1 that is the arguments text: the turn then
    prints, as the result, the request's own arguments. *)
Theorem prompt_echoed_on_empty_body (W : world) (s : Main.state)
  (line rest : list ascii) :
  sized s -> plain line ->
  Main.stdin s = bytes "1" ++ LF :: line ++ LF :: rest ->
  curl_easy_init W (Main.calls s) = true ->
  let a := prompt_args (firstn 1023 line) in
  let t := curl_transfer W (Main.calls s) (request_for W "generate" a) in
  code t = CURLE_OK -> blocks t = [] ->
  exists s',
    Main.main_iter W s = Main.Ok None s' /\
    Main.trace s' =
      Main.trace s ++ menu ++
      [ Stdout "Enter prompt: ";
        RpcCall "generate" (Some a);
        HttpPost (request_for W "generate" a);
        Stdout ("Result: " ++ a ++ c_lit "\n") ].
Proof.
  intros Hs Hp H Hi a t Hc Hb.
  destruct (prompt_turn_run W s line rest Hs Hp H)
    as [s3 [E [T [_ [L [_ [_ [_ C]]]]]]]].
  fold (kept line) in a. fold a in L.
  rewrite E. unfold Main.bind at 1.
  assert (P : performed W "generate" a s3 = (CURLE_OK, fresh_response)).
  { unfold performed, Main.curl_easy_perform. rewrite C. fold t.
    rewrite Hb, Hc. reflexivity. }
  rewrite (call_empty_run W "generate" Main.Result s3 a fresh_response L
             ltac:(rewrite C; exact Hi) P eq_refl).
  unfold after_generate. rewrite Z.eqb_refl.
  unfold Main.bind at 1. unfold Main.printf_s, Main.bind at 1.
  unfold Main.read_str.
  change (Main.load (Main.emit (HttpPost (request_for W "generate" a))
            (Main.count_call (Main.emit (RpcCall "generate" (Some a)) s3)))
            Main.Result) with (Main.load s3 Main.Result).
  rewrite L. eexists. split; [reflexivity|].
  simpl. rewrite T, <- !app_assoc. reflexivity.
Qed.

Lemma prompt_echoed_on_empty_body_witness :
  exists s',
    Main.main_iter w_empty (boot_prompt (bytes "hi")) = Main.Ok None s' /\
    printed (Main.trace s') =
      (printed menu ++ "Enter prompt: " ++ c_lit "Result: {`prompt`:`hi`}\n")%string.
Proof.
  destruct (prompt_echoed_on_empty_body w_empty (boot_prompt (bytes "hi"))
              (bytes "hi") [])
    as [s' [E T]].
  - split; reflexivity.
  - repeat constructor.
  - reflexivity.
  - reflexivity.
  - reflexivity.
  - reflexivity.
  - exists s'. split; [exact E|]. rewrite T. reflexivity.
Defined.

(* ------------------------------------------------------------------ *)
(** ** Printing an [int] *)

Lemma uint_text_clean (d : Decimal.uint) :
  Forall (fun c => is_nul c = false) (bytes (NilEmpty.string_of_uint d)).
Proof. induction d; simpl; constructor; auto. Qed.

Lemma uint_text_length (d : Decimal.uint) :
  List.length (bytes (NilEmpty.string_of_uint d)) = Decimal.nb_digits d.
Proof. induction d; simpl; auto. Qed.

Lemma double_digits (d : Decimal.uint) :
  (Decimal.nb_digits (Decimal.Little.double d) <= S (Decimal.nb_digits d))%nat /\
  (Decimal.nb_digits (Decimal.Little.succ_double d) <= S (Decimal.nb_digits d))%nat.
Proof. induction d; simpl; lia. Qed.

Lemma little_uint_digits (p : positive) :
  (Decimal.nb_digits (Pos.to_little_uint p) <= Pos.size_nat p)%nat.
Proof.
  induction p as [p IH|p IH|]; simpl; [| |lia].
  - pose proof (proj2 (double_digits (Pos.to_little_uint p))). lia.
  - pose proof (proj1 (double_digits (Pos.to_little_uint p))). lia.
Qed.

Lemma size_nat_bound (p : positive) :
  forall n, Z.pos p < 2 ^ Z.of_nat n -> (Pos.size_nat p <= n)%nat.
Proof.
  induction p as [p IH|p IH|]; intros n H; simpl.
  - destruct n as [|n]; [simpl in H; lia|].
    rewrite Nat2Z.inj_succ, Z.pow_succ_r in H by lia.
    specialize (IH n). lia.
  - destruct n as [|n]; [simpl in H; lia|].
    rewrite Nat2Z.inj_succ, Z.pow_succ_r in H by lia.
    specialize (IH n). lia.
  - destruct n as [|n]; [simpl in H; lia | lia].
Qed.

Lemma dec_clean (v : Z) : Forall (fun c => is_nul c = false) (bytes (dec v)).
Proof.
  unfold dec. destruct v as [|p|p]; simpl.
  - repeat constructor.
  - destruct (Pos.to_uint p); try apply uint_text_clean. repeat constructor.
  - constructor; [reflexivity|].
    destruct (Pos.to_uint p); try apply uint_text_clean. repeat constructor.
Qed.

Lemma zero_uint_text_length (d : Decimal.uint) :
  (List.length (bytes (NilZero.string_of_uint d)) <= S (Decimal.nb_digits d))%nat.
Proof.
  destruct d; simpl; rewrite ?uint_text_length; lia.
Qed.

Lemma dec_length (v : Z) :
  INT_MIN <= v <= INT_MAX -> (List.length (bytes (dec v)) <= 34)%nat.
Proof.
  unfold INT_MIN, INT_MAX. intros H.
  assert (B : forall p, Z.pos p < 2 ^ Z.of_nat 32 ->
              (List.length (bytes (NilZero.string_of_uint (Pos.to_uint p))) <= 33)%nat).
  { intros p Hp. pose proof (size_nat_bound p 32 Hp) as S1.
    pose proof (little_uint_digits p) as S2.
    pose proof (zero_uint_text_length (Pos.to_uint p)) as S3.
    unfold Pos.to_uint in S3 at 2. rewrite DecimalFacts.nb_digits_rev in S3.
    lia. }
  change (2 ^ Z.of_nat 32) with 4294967296 in B.
  unfold dec. destruct v as [|p|p]; simpl.
  - lia.
  - specialize (B p). lia.
  - specialize (B p). assert (Z.pos p < 4294967296) by lia. lia.
Qed.

Lemma scanf_d_range (l rest : list ascii) (v : Z) :
  scanf_d l = (Assigned v, rest) -> INT_MIN <= v <= INT_MAX.
Proof.
  unfold scanf_d. destruct (skip_space l) as [|c t]; [discriminate|].
  destruct (if is_sign c then t else c :: t) as [|d b]; [discriminate|].
  destruct (is_digit d); [|discriminate].
  destruct (read_digits 0 (d :: b)) as [n r].
  destruct ((INT_MIN <=? (if Ascii.eqb c "-" then - n else n)) &&
            ((if Ascii.eqb c "-" then - n else n) <=? INT_MAX)) eqn:E;
    [|discriminate].
  intros H. injection H as <- _. apply andb_prop in E. destruct E as [E1 E2].
  apply Z.leb_le in E1, E2. split; assumption.
Qed.

Lemma level_args_clean (v : Z) :
  Forall (fun c => is_nul c = false) (bytes (level_args v)).
Proof.
  unfold level_args. rewrite !bytes_app.
  apply Forall_app. split; [vm_compute; repeat constructor|].
  apply Forall_app. split; [apply dec_clean | vm_compute; repeat constructor].
Qed.

Lemma level_args_length (v : Z) :
  INT_MIN <= v <= INT_MAX -> (List.length (bytes (level_args v)) <= 44)%nat.
Proof.
  intros H. unfold level_args. rewrite !bytes_app, !length_app.
  pose proof (dec_length v H).
  change (List.length (bytes (c_lit "{`level`:"))) with 9%nat.
  change (List.length (bytes "}")) with 1%nat. lia.
Qed.

(* ------------------------------------------------------------------ *)
(** ** The debug level, any level *)

Lemma debug_level_trace (W : world) (s : Main.state) (rest rest' : list ascii)
  (v : Z) :
  scanf_d (Main.stdin s) = (Assigned 4, rest) ->
  scanf_d rest = (Assigned v, rest') ->
  List.length (Main.result s) = Main.MAX_RESPONSE ->
  exists outs,
    Main.trace (stopped (Main.main_iter W s)) =
    Main.trace s ++ menu ++
    Stdout "Debug level (0-3): " ::
    RpcCall "set_debug" (Some (level_args v)) ::
    (if curl_easy_init W (Main.calls s)
     then [HttpPost (request_for W "set_debug" (level_args v))]
     else []) ++ map Stdout outs.
Proof.
  intros H H2 Hlen.
  pose proof (scanf_d_range _ _ _ H2) as Hv.
  rewrite main_iter_run, H.
  unfold Main.switch_choice.
  unfold Main.bind at 1. unfold Main.printf at 1.
  unfold Main.bind at 1. unfold Main.scanf_choice at 1.
  simpl Main.stdin. rewrite H2.
  unfold Main.bind at 1. unfold Main.get_choice at 1.
  simpl Main.choice.
  unfold Main.bind at 1.
  rewrite snprintf_result_d_run by exact Hlen.
  fold (level_args v).
  match goal with |- context [Main.bind ?m ?k ?x] =>
    destruct (bind_prints m k ltac:(only_prints) x) as [outs E] end.
  exists outs.
  rewrite E, call_trace. simpl Main.calls. simpl Main.load.
  rewrite cstr_poke_snprintf;
    [| apply level_args_clean
     | pose proof (level_args_length v Hv); unfold Main.MAX_RESPONSE; lia].
  simpl Main.trace. rewrite <- !app_assoc. reflexivity.
Qed.

(** X9. The debug level is not checked against the 0 to 3 of its prompt, nor
    against anything: whatever [int] the second [scanf] reads, the networked
    variant calls set_debug with that number as level, and the mock variant
    prints that number as the level set. *)
Theorem debug_level_unchecked (W : world) :
  (forall (s : Main.state) (rest rest' : list ascii) (v : Z),
      scanf_d (Main.stdin s) = (Assigned 4, rest) ->
      scanf_d rest = (Assigned v, rest') ->
      List.length (Main.result s) = Main.MAX_RESPONSE ->
      let s' := Main.final (Main.main_loop W 1 s) in
      rpc_calls (Main.trace s') =
        rpc_calls (Main.trace s) ++ [("set_debug"%string, Some (level_args v))] /\
      posts (Main.trace s') =
        posts (Main.trace s) ++
        (if curl_easy_init W (Main.calls s)
         then [request_for W "set_debug" (level_args v)] else [])) /\
  (forall (s : MainSimple.state) (rest rest' : list ascii) (v : Z),
      scanf_d (MainSimple.stdin s) = (Assigned 4, rest) ->
      scanf_d rest = (Assigned v, rest') ->
      MainSimple.main_iter s =
      MainSimple.Ok None
        (emits_simple
           [ Stdout "Debug level (0-3): ";
             Stdout ("Debug: Level set to " ++ dec v ++ c_lit "\n") ]
           (MainSimple.set_choice v
              (MainSimple.set_stdin rest' (emits_simple menu s))))).
Proof.
  split.
  - intros s rest rest' v H H2 Hlen s'. subst s'.
    destruct (debug_level_trace W s rest rest' v H H2 Hlen) as [outs T].
    rewrite final_one, T.
    rewrite !posts_app, !rpc_calls_app. simpl posts. simpl rpc_calls.
    rewrite !posts_app, !rpc_calls_app, posts_prints, rpc_calls_prints, !app_nil_r.
    destruct (curl_easy_init W (Main.calls s)); split; reflexivity.
  - intros s rest rest' v H H2.
    rewrite main_iter_simple_run, H. destruct s as [si tr inp ch].
    run_simple. rewrite H2. rewrite <- !app_assoc. reflexivity.
Qed.

Lemma debug_level_unchecked_witness :
  rpc_calls (Main.trace (Main.final (Main.main_loop w_ok 1 (boot "4\n-17\n" "" "")))) =
    [("set_debug"%string, Some (c_lit "{`level`:-17}"))] /\
  MainSimple.main_iter (boot_simple "4 99\n") =
    MainSimple.Ok None
      (emits_simple
         [ Stdout "Debug level (0-3): ";
           Stdout (c_lit "Debug: Level set to 99\n") ]
         (MainSimple.set_choice 99
            (MainSimple.set_stdin [LF] (emits_simple menu (boot_simple "4 99\n"))))).
Proof.
  destruct (debug_level_unchecked w_ok) as [HM HS].
  split.
  - apply (HM (boot "4\n-17\n" "" "") (bytes (c_lit "\n-17\n")) [LF] (-17)
              eq_refl eq_refl eq_refl).
  - apply (HS (boot_simple "4 99\n") (bytes (c_lit " 99\n")) [LF] 99
              eq_refl eq_refl).
Defined.

(* ------------------------------------------------------------------ *)
(** ** The prompt of the mock variant *)

(** X10. Case 1 of the mock variant prints the line it read between the
    quotes of its fixed answer, without its line feed and cut to the first
    1023 bytes; what a longer line has beyond them stays unread for the
    next [scanf] of the menu. *)
Theorem mock_prompt_echo (s : MainSimple.state) (line rest : list ascii) :
  plain line ->
  MainSimple.stdin s = bytes "1" ++ LF :: line ++ LF :: rest ->
  exists s',
    MainSimple.main_iter s = MainSimple.Ok None s' /\
    MainSimple.trace s' =
      MainSimple.trace s ++ menu ++
      [ Stdout "Enter prompt: ";
        Stdout ("Generated: Mock text for '" ++ text (firstn 1023 line)
                ++ c_lit "'\n") ] /\
    MainSimple.stdin s' =
      (if (List.length line <? 1023)%nat then rest
       else skipn 1023 line ++ LF :: rest).
Proof.
  intros Hp H.
  rewrite main_iter_simple_run, H.
  change (scanf_d (bytes "1" ++ LF :: line ++ LF :: rest))
    with (Assigned 1, LF :: line ++ LF :: rest).
  destruct s as [si tr inp ch]. clear H.
  destruct (fgets_chomp_cut inp line rest Hp) as [b [t [F [S1 [S2 _]]]]].
  pose proof (plain_firstn (Main.MAX_INPUT - 1) line Hp) as Hk.
  fold (kept line) in Hk.
  change Main.MAX_INPUT with MainSimple.INPUT_SIZE in F.
  unfold MainSimple.switch_choice.
  cbv [MainSimple.bind MainSimple.printf MainSimple.do_getchar
       MainSimple.fgets_input MainSimple.emit MainSimple.set_stdin
       MainSimple.set_choice MainSimple.set_input emits_simple getchar tl
       MainSimple.stdin MainSimple.trace MainSimple.input MainSimple.choice].
  rewrite F.
  cbv [MainSimple.chomp_input MainSimple.set_input
       MainSimple.stdin MainSimple.trace MainSimple.input MainSimple.choice].
  rewrite S1, S2.
  cbv [MainSimple.printf_input MainSimple.input]. unfold cstr.
  rewrite cstr_bytes_terminated by (apply plain_no_nul; exact Hk).
  cbv [option_map MainSimple.ret MainSimple.emit
       MainSimple.stdin MainSimple.trace MainSimple.input MainSimple.choice].
  eexists. split; [reflexivity|]. split.
  - cbv [MainSimple.trace]. rewrite <- !app_assoc. reflexivity.
  - reflexivity.
Qed.

Lemma mock_prompt_echo_witness :
  exists s',
    MainSimple.main_iter (boot_simple "1\nhello\n") = MainSimple.Ok None s' /\
    MainSimple.trace s' =
      menu ++ [ Stdout "Enter prompt: ";
                Stdout (c_lit "Generated: Mock text for 'hello'\n") ] /\
    MainSimple.stdin s' = [].
Proof.
  apply (mock_prompt_echo (boot_simple "1\nhello\n") (bytes "hello") []).
  - repeat constructor.
  - reflexivity.
Defined.

(* ------------------------------------------------------------------ *)
(** ** Arrays that stay strings *)

Lemma terminated_app_nul (a b : list ascii) : terminated (a ++ NUL :: b).
Proof.
  unfold terminated. induction a as [|c a IH]; simpl; [discriminate|].
  destruct (is_nul c); [discriminate|].
  destruct (cstr_bytes (a ++ NUL :: b)); [discriminate | contradiction].
Qed.

Lemma terminated_strcspn (buf : list ascii) :
  terminated buf ->
  exists i, strcspn_lf buf = Some i /\ (i < List.length buf)%nat.
Proof.
  unfold terminated. induction buf as [|c t IH]; simpl; [contradiction|].
  intros H. destruct (is_nul c) eqn:E; simpl.
  - exists O. split; [reflexivity | lia].
  - destruct (is_lf c); [exists O; split; [reflexivity | lia]|].
    destruct (cstr_bytes t); [|contradiction].
    destruct IH as [i [Hi Hl]]; [discriminate|].
    exists (S i). rewrite Hi. split; [reflexivity | lia].
Qed.

Lemma clear_at_length (i : nat) (buf : list ascii) :
  List.length (clear_at i buf) = List.length buf.
Proof.
  revert buf. induction i as [|i IH]; intros [|c t]; simpl; auto.
Qed.

Lemma clear_at_terminated (i : nat) (buf : list ascii) :
  (i < List.length buf)%nat -> terminated (clear_at i buf).
Proof.
  unfold terminated. revert buf.
  induction i as [|i IH]; intros [|c t] H; simpl in *; try lia.
  - discriminate.
  - destruct (is_nul c); [discriminate|].
    specialize (IH t ltac:(lia)).
    destruct (cstr_bytes (clear_at i t)); [discriminate | contradiction].
Qed.

Lemma poke_length (data buf : list ascii) :
  (List.length data <= List.length buf)%nat ->
  List.length (poke data buf) = List.length buf.
Proof. intros H. unfold poke. rewrite length_app, length_skipn. lia. Qed.

Lemma poke_terminated (x buf : list ascii) : terminated (poke (x ++ [NUL]) buf).
Proof. unfold poke. rewrite <- app_assoc. apply terminated_app_nul. Qed.

Lemma read_line_length (n : nat) (l : list ascii) :
  (List.length (fst (read_line n l)) <= n)%nat.
Proof.
  revert l. induction n as [|n IH]; intros [|c t]; simpl; try lia.
  destruct (is_lf c); simpl; [lia|].
  specialize (IH t). destruct (read_line n t) as [r rest]. simpl in *. lia.
Qed.

(** [fgets] keeps a 1024-byte array that holds a string such an array. *)
Lemma fgets_safe (buf l : list ascii) :
  List.length buf = 1024%nat -> terminated buf ->
  List.length (fst (fgets buf 1024 l)) = 1024%nat /\
  terminated (fst (fgets buf 1024 l)).
Proof.
  intros Hl Ht. unfold fgets. destruct l as [|c t]; [split; assumption|].
  pose proof (read_line_length (1024 - 1) (c :: t)) as R.
  destruct (read_line (1024 - 1) (c :: t)) as [r rest]. simpl fst in *.
  split; [|apply poke_terminated].
  rewrite poke_length; [exact Hl|].
  rewrite length_app, Hl. simpl. simpl in R. lia.
Qed.

Lemma snprintf_terminated (size : nat) (t : string) (buf : list ascii) :
  terminated (poke (snprintf_bytes size t) buf).
Proof. unfold snprintf_bytes. apply poke_terminated. Qed.

(* ------------------------------------------------------------------ *)
(** ** Steps that keep the arrays safe *)

Lemma steady_ret {A} (a : A) : steady (Main.ret a).
Proof. intros s H. exists a, s. split; [reflexivity | exact H]. Qed.

Lemma steady_bind {A B} (m : Main.M A) (k : A -> Main.M B) :
  steady m -> (forall a, steady (k a)) -> steady (Main.bind m k).
Proof.
  intros Hm Hk s H. destruct (Hm s H) as [a [s1 [E1 H1]]].
  destruct (Hk a s1 H1) as [b [s2 [E2 H2]]].
  exists b, s2. unfold Main.bind. rewrite E1. split; assumption.
Qed.

Lemma steady_printf (out : string) : steady (Main.printf out).
Proof. intros s H. exists tt, (Main.emit (Stdout out) s). split; [reflexivity | exact H]. Qed.

Lemma steady_getchar : steady Main.do_getchar.
Proof. intros s H. eexists. eexists. split; [reflexivity | exact H]. Qed.

Lemma steady_get_choice : steady Main.get_choice.
Proof. intros s H. eexists. eexists. split; [reflexivity | exact H]. Qed.

Lemma steady_fgets : steady Main.fgets_input.
Proof.
  intros s [[Hi Hr] [Ti Tr]]. unfold Main.fgets_input.
  pose proof (fgets_safe (Main.input s) (Main.stdin s) Hi Ti) as [F1 F2].
  change Main.MAX_INPUT with 1024%nat.
  destruct (fgets (Main.input s) 1024 (Main.stdin s)) as [b rest].
  eexists. eexists. split; [reflexivity|].
  repeat split; assumption.
Qed.

Lemma steady_chomp : steady Main.chomp_input.
Proof.
  intros s [[Hi Hr] [Ti Tr]]. unfold Main.chomp_input.
  destruct (terminated_strcspn _ Ti) as [i [E Hl]]. rewrite E.
  eexists. eexists. split; [reflexivity|].
  repeat split; simpl; try assumption.
  - rewrite clear_at_length. exact Hi.
  - apply clear_at_terminated. exact Hl.
Qed.

Lemma safe_loads (s : Main.state) (p : Main.cptr) :
  safe s -> exists v, Main.load s p = Some v.
Proof.
  intros [_ [Ti Tr]]. unfold terminated in Ti, Tr.
  destruct p; simpl; [eauto| |]; unfold cstr;
    [destruct (cstr_bytes (Main.input s)) | destruct (cstr_bytes (Main.result s))];
    simpl; eauto; contradiction.
Qed.

Lemma steady_write_result (b : list ascii) :
  (List.length b <= Main.MAX_RESPONSE)%nat ->
  (forall buf, terminated (poke b buf)) ->
  steady (Main.write Main.Result b).
Proof.
  intros Hb Ht s [[Hi Hr] [Ti Tr]]. unfold Main.write.
  assert (L : (List.length b <=? List.length (Main.result s))%nat = true)
    by (apply Nat.leb_le; rewrite Hr; exact Hb).
  rewrite L. eexists. eexists. split; [reflexivity|].
  repeat split; simpl; try assumption.
  - rewrite poke_length; [exact Hr | rewrite Hr; exact Hb].
  - apply Ht.
Qed.

Lemma steady_snprintf_d (pre post : string) (n : Z) :
  steady (Main.snprintf_result_d pre n post).
Proof.
  unfold Main.snprintf_result_d. apply steady_write_result.
  - apply snprintf_length. unfold Main.MAX_RESPONSE. lia.
  - intros buf. apply snprintf_terminated.
Qed.

Lemma steady_snprintf_s (pre post : string) (p : Main.cptr) :
  steady (Main.snprintf_result_s pre p post).
Proof.
  intros s H. unfold Main.snprintf_result_s, Main.bind, Main.read_str.
  destruct (safe_loads s p H) as [v E]. rewrite E.
  apply steady_write_result; [| |exact H].
  - apply snprintf_length. unfold Main.MAX_RESPONSE. lia.
  - intros buf. apply snprintf_terminated.
Qed.

Lemma steady_printf_s (pre post : string) (p : Main.cptr) :
  steady (Main.printf_s pre p post).
Proof.
  intros s H. unfold Main.printf_s, Main.bind, Main.read_str.
  destruct (safe_loads s p H) as [v E]. rewrite E.
  eexists. eexists. split; [reflexivity | exact H].
Qed.

Lemma steady_call (W : world) (tool : string) (args : Main.cptr) :
  steady (Main.call_mcp_tool W tool args Main.Result).
Proof.
  intros s H. rewrite call_mcp_tool_run. cbv zeta.
  destruct (curl_easy_init W (Main.calls s)).
  2:{ eexists. eexists. split; [reflexivity | exact H]. }
  simpl negb. cbv iota.
  destruct (safe_loads s args H) as [a E]. rewrite E.
  destruct (performed W tool a s) as [r rsp].
  destruct (r =? CURLE_OK).
  2:{ eexists. eexists. split; [reflexivity | exact H]. }
  destruct (Main.data rsp) as [d|].
  2:{ eexists. eexists. split; [reflexivity | exact H]. }
  assert (S3 : safe (Main.emit (HttpPost (request_for W tool a))
                       (Main.count_call (Main.emit (RpcCall tool (Some a)) s))))
    by exact H.
  destruct (steady_write_result (strncpy_bytes d (Main.MAX_RESPONSE - 1) ++ [NUL])
              ltac:(rewrite length_app, strncpy_length; unfold Main.MAX_RESPONSE;
                    simpl List.length; lia)
              (fun buf => poke_terminated _ buf) _ S3)
    as [u [s4 [E4 H4]]].
  rewrite E4. eexists. eexists. split; [reflexivity | exact H4].
Qed.

Ltac steady_steps :=
  repeat first
    [ apply steady_ret | apply steady_printf | apply steady_getchar
    | apply steady_get_choice | apply steady_fgets | apply steady_chomp
    | apply steady_snprintf_d | apply steady_snprintf_s | apply steady_printf_s
    | apply steady_call | apply steady_bind
    | match goal with |- steady (if ?b then _ else _) => destruct b end
    | intro ].

Lemma steady_switch (W : world) (v : Z) : v <> 4 -> v <> 8 ->
  steady (Main.switch_choice W v).
Proof.
  intros H4 H8. destruct v as [|p|p];
    [| do 4 (try destruct p as [p|p|]); try congruence |];
    unfold Main.switch_choice; steady_steps.
Qed.

Lemma debug_switch_safe (W : world) (s : Main.state) :
  safe s ->
  match Main.switch_choice W 4 s with
  | Main.Ok _ s' => safe s'
  | Main.UB _ => overflows (Main.stdin s)
  end.
Proof.
  intros H. unfold Main.switch_choice.
  unfold Main.bind at 1. unfold Main.printf at 1.
  unfold Main.bind at 1. unfold Main.scanf_choice at 1.
  simpl Main.stdin. unfold overflows.
  destruct (scanf_d (Main.stdin s)) as [[v| | |] rest]; [| | |reflexivity].
  all: match goal with |- match ?m ?x with _ => _ end =>
         assert (Hm : steady m) by steady_steps;
         destruct (Hm x H) as [a [s' [E H']]]; rewrite E; exact H'
       end.
Qed.

Lemma main_iter_safe (W : world) (s : Main.state) :
  safe s ->
  match Main.main_iter W s with
  | Main.Ok _ s' => safe s'
  | Main.UB _ => overflowing_turn (Main.stdin s)
  end.
Proof.
  intros H. rewrite main_iter_run. unfold overflowing_turn, overflows.
  destruct (scanf_d (Main.stdin s)) as [[v| | |] rest] eqn:E.
  - destruct (Z.eq_dec v 4) as [->|H4].
    + pose proof (debug_switch_safe W
                    (Main.set_choice 4 (Main.set_stdin rest (emits menu s))) H) as D.
      destruct (Main.switch_choice W 4 _); [exact D|].
      right. exists rest. split; [reflexivity | exact D].
    + destruct (Z.eq_dec v 8) as [->|H8]; [exact H|].
      destruct (steady_switch W v H4 H8
                  (Main.set_choice v (Main.set_stdin rest (emits menu s))) H)
        as [a [s' [E' H']]].
      rewrite E'. exact H'.
  - exact H.
  - exact H.
  - left. reflexivity.
Qed.

(** X11. Memory safety of the networked loop.  If on entering a turn the two
    arrays have their declared sizes and each holds a NUL, then the turn
    writes within them and leaves them so, and reads no string past an
    array; the only way such a turn leaves defined behaviour is a numeral
    that does not fit [int] at one of its two [scanf]s.  So from such a
    state the whole loop stays within the arrays, up to the first such
    numeral. *)
Theorem networked_loop_stays_in_arrays (W : world) (s : Main.state) :
  safe s ->
  match Main.main_iter W s with
  | Main.Ok _ s' => safe s'
  | Main.UB _ => overflowing_turn (Main.stdin s)
  end /\
  forall fuel,
    match Main.main_loop W fuel s with
    | Main.Running s' | Main.Exited _ s' => safe s'
    | Main.Undefined _ =>
        exists k s0, (k < fuel)%nat /\ Main.main_loop W k s = Main.Running s0 /\
                     safe s0 /\ overflowing_turn (Main.stdin s0)
    end.
Proof.
  intros H. split; [apply main_iter_safe; exact H|].
  intros fuel. revert s H. induction fuel as [|n IH]; intros s H; [exact H|].
  rewrite main_loop_S. pose proof (main_iter_safe W s H) as T.
  destruct (Main.main_iter W s) as [[c|] s1|s1] eqn:E.
  - exact T.
  - specialize (IH s1 T).
    destruct (Main.main_loop W n s1) as [s2|c s2|s2] eqn:L; try exact IH.
    destruct IH as [k [s0 [Hk [Hr [Hs Ho]]]]].
    exists (S k), s0. split; [lia|]. split; [|split; assumption].
    rewrite main_loop_S, E. exact Hr.
  - exists O, s. split; [lia|]. split; [reflexivity|]. split; assumption.
Qed.

Lemma networked_loop_stays_in_arrays_witness :
  match Main.main_loop w_ok 3 (boot "1\nhello\n2\n7\n" "" "") with
  | Main.Running s' | Main.Exited _ s' => safe s'
  | Main.Undefined _ =>
      exists k s0, (k < 3)%nat /\
        Main.main_loop w_ok k (boot "1\nhello\n2\n7\n" "" "") = Main.Running s0 /\
        safe s0 /\ overflowing_turn (Main.stdin s0)
  end.
Proof.
  apply (networked_loop_stays_in_arrays w_ok (boot "1\nhello\n2\n7\n" "" "")).
  repeat split; discriminate.
Defined.

(* ------------------------------------------------------------------ *)
(** ** The same for the mock variant *)

Lemma steady_simple_ret {A} (a : A) : steady_simple (MainSimple.ret a).
Proof. intros s H. exists a, s. split; [reflexivity | exact H]. Qed.

Lemma steady_simple_bind {A B} (m : MainSimple.M A) (k : A -> MainSimple.M B) :
  steady_simple m -> (forall a, steady_simple (k a)) ->
  steady_simple (MainSimple.bind m k).
Proof.
  intros Hm Hk s H. destruct (Hm s H) as [a [s1 [E1 H1]]].
  destruct (Hk a s1 H1) as [b [s2 [E2 H2]]].
  exists b, s2. unfold MainSimple.bind. rewrite E1. split; assumption.
Qed.

Lemma steady_simple_printf (out : string) : steady_simple (MainSimple.printf out).
Proof. intros s H. eexists. eexists. split; [reflexivity | exact H]. Qed.

Lemma steady_simple_getchar : steady_simple MainSimple.do_getchar.
Proof. intros s H. eexists. eexists. split; [reflexivity | exact H]. Qed.

Lemma steady_simple_get_choice : steady_simple MainSimple.get_choice.
Proof. intros s H. eexists. eexists. split; [reflexivity | exact H]. Qed.

Lemma steady_simple_fgets : steady_simple MainSimple.fgets_input.
Proof.
  intros s [Hi Ti]. unfold MainSimple.fgets_input.
  pose proof (fgets_safe (MainSimple.input s) (MainSimple.stdin s) Hi Ti) as [F1 F2].
  change MainSimple.INPUT_SIZE with 1024%nat.
  destruct (fgets (MainSimple.input s) 1024 (MainSimple.stdin s)) as [b rest].
  eexists. eexists. split; [reflexivity|]. split; assumption.
Qed.

Lemma steady_simple_chomp : steady_simple MainSimple.chomp_input.
Proof.
  intros s [Hi Ti]. unfold MainSimple.chomp_input.
  destruct (terminated_strcspn _ Ti) as [i [E Hl]]. rewrite E.
  eexists. eexists. split; [reflexivity|]. split; simpl.
  - rewrite clear_at_length. exact Hi.
  - apply clear_at_terminated. exact Hl.
Qed.

Lemma steady_simple_printf_input (pre post : string) :
  steady_simple (MainSimple.printf_input pre post).
Proof.
  intros s [Hi Ti]. unfold MainSimple.printf_input, cstr.
  unfold terminated in Ti.
  destruct (cstr_bytes (MainSimple.input s)) as [v|] eqn:E; [|contradiction].
  simpl. eexists. eexists. split; [reflexivity|].
  split; simpl; [exact Hi|]. unfold terminated. rewrite E. discriminate.
Qed.

Ltac steady_simple_steps :=
  repeat first
    [ apply steady_simple_ret | apply steady_simple_printf
    | apply steady_simple_getchar | apply steady_simple_get_choice
    | apply steady_simple_fgets | apply steady_simple_chomp
    | apply steady_simple_printf_input | apply steady_simple_bind
    | intro ].

Lemma steady_simple_switch (v : Z) : v <> 4 -> v <> 8 ->
  steady_simple (MainSimple.switch_choice v).
Proof.
  intros H4 H8. destruct v as [|p|p];
    [| do 4 (try destruct p as [p|p|]); try congruence |];
    unfold MainSimple.switch_choice; steady_simple_steps.
Qed.

Lemma debug_switch_simple_safe (s : MainSimple.state) :
  safe_simple s ->
  match MainSimple.switch_choice 4 s with
  | MainSimple.Ok _ s' => safe_simple s'
  | MainSimple.UB _ => overflows (MainSimple.stdin s)
  end.
Proof.
  intros H. destruct s as [si tr inp ch]. unfold overflows.
  run_simple. destruct (scanf_d si) as [[v| | |] rest]; simpl; try exact H.
  reflexivity.
Qed.

Lemma main_iter_simple_safe (s : MainSimple.state) :
  safe_simple s ->
  match MainSimple.main_iter s with
  | MainSimple.Ok _ s' => safe_simple s'
  | MainSimple.UB _ => overflowing_turn (MainSimple.stdin s)
  end.
Proof.
  intros H. rewrite main_iter_simple_run. unfold overflowing_turn, overflows.
  destruct (scanf_d (MainSimple.stdin s)) as [[v| | |] rest] eqn:E.
  - destruct (Z.eq_dec v 4) as [->|H4].
    + pose proof (debug_switch_simple_safe
                    (MainSimple.set_choice 4
                       (MainSimple.set_stdin rest (emits_simple menu s))) H) as D.
      destruct (MainSimple.switch_choice 4 _); [exact D|].
      right. exists rest. split; [reflexivity | exact D].
    + destruct (Z.eq_dec v 8) as [->|H8]; [exact H|].
      destruct (steady_simple_switch v H4 H8
                  (MainSimple.set_choice v
                     (MainSimple.set_stdin rest (emits_simple menu s))) H)
        as [a [s' [E' H']]].
      rewrite E'. exact H'.
  - exact H.
  - exact H.
  - left. reflexivity.
Qed.

(** X12. Memory safety of the mock loop.  If on entering a turn [input] has
    its 1024 bytes and holds a NUL, the turn leaves it so and reads no
    string past it; the only way such a turn leaves defined behaviour is a
    numeral that does not fit [int] at one of its two [scanf]s.  So from
    such a state the whole loop stays within the array, up to the first such
    numeral. *)
Theorem mock_loop_stays_in_array (s : MainSimple.state) :
  safe_simple s ->
  match MainSimple.main_iter s with
  | MainSimple.Ok _ s' => safe_simple s'
  | MainSimple.UB _ => overflowing_turn (MainSimple.stdin s)
  end /\
  forall fuel,
    match MainSimple.main_loop fuel s with
    | MainSimple.Running s' | MainSimple.Exited _ s' => safe_simple s'
    | MainSimple.Undefined _ =>
        exists k s0, (k < fuel)%nat /\
                     MainSimple.main_loop k s = MainSimple.Running s0 /\
                     safe_simple s0 /\ overflowing_turn (MainSimple.stdin s0)
    end.
Proof.
  intros H. split; [apply main_iter_simple_safe; exact H|].
  intros fuel. revert s H. induction fuel as [|n IH]; intros s H; [exact H|].
  rewrite main_loop_simple_S. pose proof (main_iter_simple_safe s H) as T.
  destruct (MainSimple.main_iter s) as [[c|] s1|s1] eqn:E.
  - exact T.
  - specialize (IH s1 T).
    destruct (MainSimple.main_loop n s1) as [s2|c s2|s2] eqn:L; try exact IH.
    destruct IH as [k [s0 [Hk [Hr [Hs Ho]]]]].
    exists (S k), s0. split; [lia|]. split; [|split; assumption].
    rewrite main_loop_simple_S, E. exact Hr.
  - exists O, s. split; [lia|]. split; [reflexivity|]. split; assumption.
Qed.

Lemma mock_loop_stays_in_array_witness :
  match MainSimple.main_loop 2 (boot_simple "3\n99999999999\n") with
  | MainSimple.Running s' | MainSimple.Exited _ s' => safe_simple s'
  | MainSimple.Undefined _ =>
      exists k s0, (k < 2)%nat /\
        MainSimple.main_loop k (boot_simple "3\n99999999999\n") =
          MainSimple.Running s0 /\
        safe_simple s0 /\ overflowing_turn (MainSimple.stdin s0)
  end.
Proof.
  apply (mock_loop_stays_in_array (boot_simple "3\n99999999999\n")).
  split; [reflexivity | discriminate].
Defined.

(* ------------------------------------------------------------------ *)
(** ** One request a turn *)

Lemma prints_nothing {A} (m : Main.M A) :
  (forall s, Main.trace (stopped (m s)) = Main.trace s) -> prints_only m.
Proof.
  intros H s. exists []. rewrite H. simpl. rewrite app_nil_r. reflexivity.
Qed.

Lemma prints_only_scanf : prints_only Main.scanf_choice.
Proof.
  apply prints_nothing. intros s. unfold Main.scanf_choice.
  destruct (scanf_d (Main.stdin s)) as [[v| | |] rest]; reflexivity.
Qed.

Lemma prints_only_getchar : prints_only Main.do_getchar.
Proof. apply prints_nothing. reflexivity. Qed.

Lemma prints_only_get_choice : prints_only Main.get_choice.
Proof. apply prints_nothing. reflexivity. Qed.

Lemma prints_only_fgets : prints_only Main.fgets_input.
Proof.
  apply prints_nothing. intros s. unfold Main.fgets_input.
  destruct (fgets _ _ _); reflexivity.
Qed.

Lemma prints_only_chomp : prints_only Main.chomp_input.
Proof.
  apply prints_nothing. intros s. unfold Main.chomp_input.
  destruct (strcspn_lf _); reflexivity.
Qed.

Lemma prints_only_write (p : Main.cptr) (b : list ascii) :
  prints_only (Main.write p b).
Proof. apply prints_nothing. intros s. apply write_trace. Qed.

Lemma prints_only_snprintf_d (pre post : string) (n : Z) :
  prints_only (Main.snprintf_result_d pre n post).
Proof. apply prints_only_write. Qed.

Lemma prints_only_snprintf_s (pre post : string) (p : Main.cptr) :
  prints_only (Main.snprintf_result_s pre p post).
Proof.
  apply prints_nothing. intros s.
  unfold Main.snprintf_result_s, Main.bind, Main.read_str.
  destruct (Main.load s p); [apply write_trace | reflexivity].
Qed.

Ltac quiet_steps :=
  repeat first
    [ apply prints_only_ret | apply prints_only_printf
    | apply prints_only_printf_s | apply prints_only_scanf
    | apply prints_only_getchar | apply prints_only_get_choice
    | apply prints_only_fgets | apply prints_only_chomp
    | apply prints_only_snprintf_d | apply prints_only_snprintf_s
    | apply prints_only_bind
    | match goal with |- prints_only (if ?b then _ else _) => destruct b end
    | intro ].

Lemma one_call_prints {A} (m : Main.M A) : prints_only m -> one_call m.
Proof.
  intros H s. destruct (H s) as [outs E]. exists (map Stdout outs).
  rewrite posts_prints, rpc_calls_prints. split; [exact E | simpl; lia].
Qed.

Lemma one_call_pre {A B} (m : Main.M A) (k : A -> Main.M B) :
  prints_only m -> (forall a, one_call (k a)) -> one_call (Main.bind m k).
Proof.
  intros Hm Hk s. unfold Main.bind. destruct (Hm s) as [outs E].
  destruct (m s) as [a s1|s1]; simpl in E.
  - destruct (Hk a s1) as [l [E1 [C P]]]. exists (map Stdout outs ++ l).
    rewrite E1, E, <- app_assoc, posts_app, rpc_calls_app,
      posts_prints, rpc_calls_prints.
    split; [reflexivity | split; assumption].
  - exists (map Stdout outs). rewrite posts_prints, rpc_calls_prints.
    split; [exact E | simpl; lia].
Qed.

Lemma one_call_post {A B} (m : Main.M A) (k : A -> Main.M B) :
  one_call m -> (forall a, prints_only (k a)) -> one_call (Main.bind m k).
Proof.
  intros Hm Hk s. destruct (bind_prints m k Hk s) as [outs E].
  destruct (Hm s) as [l [E1 [C P]]]. exists (l ++ map Stdout outs).
  rewrite E, E1, <- app_assoc, posts_app, rpc_calls_app,
    posts_prints, rpc_calls_prints, !app_nil_r.
  split; [reflexivity | split; assumption].
Qed.

Lemma one_call_call (W : world) (tool : string) (args dst : Main.cptr) :
  one_call (Main.call_mcp_tool W tool args dst).
Proof.
  intros s. eexists. split; [apply call_trace|].
  destruct (curl_easy_init W (Main.calls s));
    [destruct (Main.load s args)|]; simpl; lia.
Qed.

Ltac one_call_steps :=
  repeat (apply one_call_pre; [solve [quiet_steps] | intro]);
  first [ solve [apply one_call_prints; quiet_steps]
        | apply one_call_post; [apply one_call_call | intro; quiet_steps] ].

Lemma one_call_switch (W : world) (v : Z) : one_call (Main.switch_choice W v).
Proof.
  destruct v as [|p|p]; [| do 4 (try destruct p as [p|p|]) |];
    unfold Main.switch_choice; one_call_steps.
Qed.

Lemma one_call_turn (W : world) : one_call (Main.main_iter W).
Proof.
  unfold Main.main_iter.
  apply one_call_pre; [unfold Main.print_menu; quiet_steps | intros _].
  apply one_call_pre; [apply prints_only_scanf | intros r].
  destruct (negb (r =? 1)).
  - apply one_call_prints. quiet_steps.
  - apply one_call_pre; [apply prints_only_get_choice | intros c].
    apply one_call_switch.
Qed.

(** X13. No retry, no second request: whatever is typed and whatever the
    server does, a turn of the networked loop enters [call_mcp_tool] once at
    most and sends one request at most, and no request is sent but from such
    a call.  So after any number of turns the requests sent are no more than
    the calls made, and the calls no more than the turns. *)
Theorem one_request_per_turn (W : world) :
  (forall s, exists l,
      Main.trace (stopped (Main.main_iter W s)) = Main.trace s ++ l /\
      (List.length (rpc_calls l) <= 1)%nat /\
      (List.length (posts l) <= List.length (rpc_calls l))%nat) /\
  (forall fuel s, exists l,
      Main.trace (Main.final (Main.main_loop W fuel s)) = Main.trace s ++ l /\
      (List.length (rpc_calls l) <= fuel)%nat /\
      (List.length (posts l) <= List.length (rpc_calls l))%nat).
Proof.
  split; [exact (one_call_turn W)|].
  induction fuel as [|n IH]; intros s.
  - exists []. simpl. rewrite app_nil_r. repeat split; lia.
  - rewrite main_loop_S. destruct (one_call_turn W s) as [l [E [C P]]].
    destruct (Main.main_iter W s) as [[c|] s1|s1]; simpl in E.
    + exists l. simpl. repeat split; [exact E | lia | exact P].
    + destruct (IH s1) as [l2 [E2 [C2 P2]]]. exists (l ++ l2).
      rewrite E2, E, <- app_assoc, posts_app, rpc_calls_app, !length_app.
      repeat split; lia.
    + exists l. simpl. repeat split; [exact E | lia | exact P].
Qed.

(* ------------------------------------------------------------------ *)
(** ** The fixed answers of the mock variant *)

(** X14. In the mock variant the cases 2, 3, 6 and 7 answer with a fixed
    text, the same whatever was typed or printed before: after the menu the
    turn prints the literals of its case and nothing else, and touches
    nothing but the input position and [choice]. *)
Theorem mock_fixed_answers (s : MainSimple.state) (c : Z) (rest : list ascii)
  (answer : list string) :
  scanf_d (MainSimple.stdin s) = (Assigned c, rest) ->
  In (c, answer) mock_answers ->
  MainSimple.main_iter s =
  MainSimple.Ok None
    (emits_simple (map Stdout answer)
       (MainSimple.set_choice c
          (MainSimple.set_stdin rest (emits_simple menu s)))).
Proof.
  intros H Hin. rewrite main_iter_simple_run, H.
  destruct s as [si tr inp ch]. simpl in Hin.
  repeat (destruct Hin as [Hin|Hin]; [injection Hin as <- <-|]);
    [| | | |contradiction];
    run_simple; cbv [map]; rewrite <- !app_assoc; reflexivity.
Qed.

Lemma mock_fixed_answers_witness :
  MainSimple.main_iter (boot_simple "3\n") =
  MainSimple.Ok None
    (emits_simple [Stdout (c_lit "Frontend: Started on port 8080\n")]
       (MainSimple.set_choice 3
          (MainSimple.set_stdin [LF] (emits_simple menu (boot_simple "3\n"))))).
Proof.
  apply (mock_fixed_answers (boot_simple "3\n") 3 [LF]
           [c_lit "Frontend: Started on port 8080\n"]).
  - reflexivity.
  - right. left. reflexivity.
Defined.

(* ------------------------------------------------------------------ *)
(** ** No answer, for the cases that read more *)

Lemma call_fails_run (W : world) (tool : string) (args : Main.cptr)
  (s : Main.state) (a : string) :
  unreachable W -> Main.load s args = Some a ->
  Main.call_mcp_tool W tool args Main.Result s =
  Main.Ok (-1)
    (if curl_easy_init W (Main.calls s)
     then Main.emit (HttpPost (request_for W tool a))
            (Main.count_call (Main.emit (RpcCall tool (Some a)) s))
     else Main.count_call (Main.emit (RpcCall tool (Some a)) s)).
Proof.
  intros Hu Ha. rewrite call_mcp_tool_run. cbv zeta. rewrite Ha.
  destruct (curl_easy_init W (Main.calls s)); [|reflexivity].
  unfold performed. rewrite Hu. reflexivity.
Qed.

(** Case 4 up to its call, when a level is read. *)
Lemma debug_turn_run (W : world) (s : Main.state) (rest rest' : list ascii)
  (v : Z) :
  scanf_d (Main.stdin s) = (Assigned 4, rest) ->
  scanf_d rest = (Assigned v, rest') ->
  List.length (Main.result s) = Main.MAX_RESPONSE ->
  exists s3,
    Main.main_iter W s =
      Main.bind (Main.call_mcp_tool W "set_debug" Main.Result Main.Result)
        (fun r => Main.bind
           (if r =? 0 then Main.printf_s "Debug: " Main.Result (c_lit "\n")
            else Main.ret tt)
           (fun _ => Main.ret None)) s3 /\
    Main.trace s3 = Main.trace s ++ menu ++ [Stdout "Debug level (0-3): "] /\
    Main.load s3 Main.Result = Some (level_args v) /\
    Main.calls s3 = Main.calls s.
Proof.
  intros H H2 Hlen.
  pose proof (scanf_d_range _ _ _ H2) as Hv.
  rewrite main_iter_run, H.
  unfold Main.switch_choice.
  unfold Main.bind at 1. unfold Main.printf at 1.
  unfold Main.bind at 1. unfold Main.scanf_choice at 1.
  simpl Main.stdin. rewrite H2.
  unfold Main.bind at 1. unfold Main.get_choice at 1.
  simpl Main.choice.
  unfold Main.bind at 1.
  rewrite snprintf_result_d_run by exact Hlen.
  fold (level_args v).
  eexists. split; [reflexivity|].
  split; [simpl; rewrite <- !app_assoc; reflexivity|].
  split; [|reflexivity].
  simpl Main.load. apply cstr_poke_snprintf; [apply level_args_clean|].
  pose proof (level_args_length v Hv). unfold Main.MAX_RESPONSE. lia.
Qed.

(** X15. With the endpoint out of reach, case 1 prints its error line after
    asking for the prompt, and case 4 prints nothing after asking for the
    level: it has no else branch.  In both the loop goes on. *)
Theorem unreachable_endpoint_with_input (W : world) (s : Main.state) :
  unreachable W -> sized s ->
  (forall line rest,
      plain line ->
      Main.stdin s = bytes "1" ++ LF :: line ++ LF :: rest ->
      exists s' evs,
        Main.main_iter W s = Main.Ok None s' /\
        Main.trace s' = Main.trace s ++ menu ++ evs /\
        printed evs =
          ("Enter prompt: " ++ c_lit "Error calling generate tool\n")%string) /\
  (forall rest rest' v,
      scanf_d (Main.stdin s) = (Assigned 4, rest) ->
      scanf_d rest = (Assigned v, rest') ->
      exists s' evs,
        Main.main_iter W s = Main.Ok None s' /\
        Main.trace s' = Main.trace s ++ menu ++ evs /\
        printed evs = "Debug level (0-3): "%string).
Proof.
  intros Hu Hs. split.
  - intros line rest Hp H.
    destruct (prompt_turn_run W s line rest Hs Hp H)
      as [s3 [E [T [_ [L _]]]]].
    rewrite E. unfold Main.bind at 1.
    rewrite (call_fails_run W "generate" Main.Result s3 _ Hu L).
    unfold after_generate.
    destruct (curl_easy_init W (Main.calls s3));
      eexists; eexists; (split; [reflexivity|]);
      (split; [simpl; rewrite T, <- !app_assoc; reflexivity | reflexivity]).
  - intros rest rest' v H H2.
    destruct (debug_turn_run W s rest rest' v H H2 (proj2 Hs))
      as [s3 [E [T [L _]]]].
    rewrite E. unfold Main.bind at 1.
    rewrite (call_fails_run W "set_debug" Main.Result s3 _ Hu L).
    destruct (curl_easy_init W (Main.calls s3));
      eexists; eexists; (split; [reflexivity|]);
      (split; [simpl; rewrite T, <- !app_assoc; reflexivity | reflexivity]).
Qed.

Lemma unreachable_endpoint_with_input_witness :
  (exists s' evs,
      Main.main_iter w_down (boot_prompt (bytes "hi")) = Main.Ok None s' /\
      Main.trace s' = Main.trace (boot_prompt (bytes "hi")) ++ menu ++ evs /\
      printed evs =
        ("Enter prompt: " ++ c_lit "Error calling generate tool\n")%string).
Proof.
  assert (U : unreachable w_down) by (intros n rq; reflexivity).
  assert (S : sized (boot_prompt (bytes "hi"))) by (split; reflexivity).
  apply (proj1 (unreachable_endpoint_with_input w_down _ U S) (bytes "hi") []).
  - repeat constructor.
  - reflexivity.
Defined.
